(** * VRM viewer: retargeting, loading and expression control

    A shallow embedding of the two [VRMViewer] components of the
    repository: the simple viewer of [src/app/page.tsx] (module [Page])
    and the full viewer with animation and expression control (module
    [Viewer]).

    The closure variables of the effect ([currentVrm], [mixer],
    [activeAction]), the scene graph and the React state ([isLoading],
    [error], [activeExpression]) form one state record; every function of
    the source is a state transformer.  A call to a loader's [load] is
    recorded in the state; the callbacks the loader fires later are
    separate transformers, so that any interleaving of calls and
    completions can be replayed.  [console] output is not part of the
    state. *)

From Stdlib Require Import String Ascii List Bool Arith Lia QArith.
From stdpp Require Import base option list strings gmap.

Local Open Scope string_scope.
Local Close Scope Q_scope.

(** ** JavaScript strings

    The string methods the viewer calls.  Names are taken over the ASCII
    range, where [toLowerCase] maps [A]..[Z] to [a]..[z]. *)
Module JsString.

Definition lowerChar (c : ascii) : ascii :=
  let n := nat_of_ascii c in
  if ((65 <=? n)%nat && (n <=? 90)%nat)%bool then ascii_of_nat (n + 32) else c.

Fixpoint toLowerCase (s : string) : string :=
  match s with
  | EmptyString => EmptyString
  | String c r => String (lowerChar c) (toLowerCase r)
  end.

(** [startsWith s p] is [s.startsWith(p)]. *)
Fixpoint startsWith (s p : string) : bool :=
  match p, s with
  | EmptyString, _ => true
  | String a p', String b s' => Ascii.eqb a b && startsWith s' p'
  | String _ _, EmptyString => false
  end.

(** [includes s sub] is [s.includes(sub)]: [sub] starts at some
    position of [s]. *)
Fixpoint includes (s sub : string) : bool :=
  startsWith s sub ||
  match s with
  | EmptyString => false
  | String _ r => includes r sub
  end.

(** [endsWith s suf] is [s.endsWith(suf)]: some suffix of [s] is
    [suf]. *)
Fixpoint endsWith (s suf : string) : bool :=
  String.eqb s suf ||
  match s with
  | EmptyString => false
  | String _ r => endsWith r suf
  end.

(** [split sep s] is [s.split(sep)] for a one-character separator: the
    result is never empty, and has one more piece than [s] has
    separators. *)
Fixpoint split (sep : ascii) (s : string) : list string :=
  match s with
  | EmptyString => [EmptyString]
  | String c r =>
      if Ascii.eqb c sep then EmptyString :: split sep r
      else match split sep r with
           | [] => [String c EmptyString]
           | piece :: pieces => String c piece :: pieces
           end
  end.

(** A JavaScript string is falsy exactly when it is empty. *)
Definition truthy (s : string) : bool := negb (String.eqb s "").

End JsString.

(** ** Plain JavaScript objects used as string-keyed tables

    [entries] lists the own properties in [Object.entries] order
    (insertion order, for keys that are not array indices).  A property
    read [o[k]] on an object literal falls through to [Object.prototype]
    when [k] is not an own key. *)
Module JsObject.

Definition t (V : Type) : Type := list (string * V).

Definition getOwn {V} (o : t V) (k : string) : option V :=
  snd <$> List.find (fun e => String.eqb (fst e) k) o.

(** [o[k] = v]: an existing key keeps its position. *)
Fixpoint set {V} (o : t V) (k : string) (v : V) : t V :=
  match o with
  | [] => [(k, v)]
  | (k', v') :: o' =>
      if String.eqb k' k then (k, v) :: o' else (k', v') :: set o' k v
  end.

Definition keys {V} (o : t V) : list string := map fst o.

(** The members every object literal inherits, each with the [name]
    property of the inherited value: the functions carry their own
    name, [constructor] is [Object], and [__proto__] reads the
    prototype object, which has no [name]. *)
Definition prototypeMembers : list (string * option string) :=
  [ ("constructor", Some "Object");
    ("__defineGetter__", Some "__defineGetter__");
    ("__defineSetter__", Some "__defineSetter__");
    ("hasOwnProperty", Some "hasOwnProperty");
    ("__lookupGetter__", Some "__lookupGetter__");
    ("__lookupSetter__", Some "__lookupSetter__");
    ("isPrototypeOf", Some "isPrototypeOf");
    ("propertyIsEnumerable", Some "propertyIsEnumerable");
    ("toString", Some "toString");
    ("valueOf", Some "valueOf");
    ("__proto__", None);
    ("toLocaleString", Some "toLocaleString") ].

(** What a read [o[k]] finds. *)
Inductive Property (V : Type) : Type :=
| Own (v : V)
| Inherited (memberName : option string)
| Undefined.
Arguments Own {V} v.
Arguments Inherited {V} memberName.
Arguments Undefined {V}.

Definition get {V} (o : t V) (k : string) : Property V :=
  match getOwn o k with
  | Some v => Own v
  | None =>
      match getOwn prototypeMembers k with
      | Some n => Inherited n
      | None => Undefined
      end
  end.

End JsObject.

(** ** The part of three.js the viewer touches *)
Module Object3D.
Record t : Type := { uuid : nat; name : string }.
#[global] Instance eq_dec : EqDecision t.
Proof. solve_decision. Defined.
End Object3D.

Inductive TrackClass : Type :=
| QuaternionKeyframeTrack
| VectorKeyframeTrack
| NumberKeyframeTrack
| BaseKeyframeTrack.

Module KeyframeTrack.
Record t : Type :=
  { class : TrackClass; name : string; times : list Q; values : list Q }.
End KeyframeTrack.

Module AnimationClip.
Record t : Type :=
  { name : string; duration : Q; tracks : list KeyframeTrack.t }.
End AnimationClip.

Inductive LoopMode : Type := LoopOnce | LoopRepeat | LoopPingPong.
Inductive Repetitions : Type := Finite (n : nat) | Infinity.
Inductive Fade : Type := FadeIn (seconds : Q) | FadeOut (seconds : Q).

Module AnimationAction.
Record t : Type :=
  { clip : AnimationClip.t;
    clampWhenFinished : bool;
    loop : LoopMode;
    repetitions : Repetitions;
    timeScale : Q;
    fading : option Fade;
    playing : bool }.

(** The action [mixer.clipAction] creates for a clip it has not seen. *)
Definition create (c : AnimationClip.t) : t :=
  {| clip := c; clampWhenFinished := false; loop := LoopRepeat;
     repetitions := Infinity; timeScale := 1%Q; fading := None;
     playing := false |}.

Definition setClampWhenFinished (b : bool) (a : t) : t :=
  {| clip := clip a; clampWhenFinished := b; loop := loop a;
     repetitions := repetitions a; timeScale := timeScale a;
     fading := fading a; playing := playing a |}.

Definition setLoop (m : LoopMode) (r : Repetitions) (a : t) : t :=
  {| clip := clip a; clampWhenFinished := clampWhenFinished a; loop := m;
     repetitions := r; timeScale := timeScale a;
     fading := fading a; playing := playing a |}.

Definition setTimeScale (q : Q) (a : t) : t :=
  {| clip := clip a; clampWhenFinished := clampWhenFinished a;
     loop := loop a; repetitions := repetitions a; timeScale := q;
     fading := fading a; playing := playing a |}.

Definition setFading (f : option Fade) (a : t) : t :=
  {| clip := clip a; clampWhenFinished := clampWhenFinished a;
     loop := loop a; repetitions := repetitions a;
     timeScale := timeScale a; fading := f; playing := playing a |}.

(** [reset] stops any fade in progress. *)
Definition reset (a : t) : t := setFading None a.
Definition fadeIn (d : Q) (a : t) : t := setFading (Some (FadeIn d)) a.
Definition fadeOut (d : Q) (a : t) : t := setFading (Some (FadeOut d)) a.

Definition play (a : t) : t :=
  {| clip := clip a; clampWhenFinished := clampWhenFinished a;
     loop := loop a; repetitions := repetitions a;
     timeScale := timeScale a; fading := fading a; playing := true |}.

(** An action drives the model when it was started and is not on its
    way out. *)
Definition running (a : t) : bool :=
  playing a && match fading a with Some (FadeOut _) => false | _ => true end.
End AnimationAction.

(** The mixer owns the actions created through it; an action is referred
    to by its position in [actions]. *)
Module AnimationMixer.
Record t : Type :=
  { root : Object3D.t; actions : list AnimationAction.t }.

Definition create (r : Object3D.t) : t := {| root := r; actions := [] |}.

(** [clipAction] on a fresh clip object: a new action, and its
    position. *)
Definition clipAction (c : AnimationClip.t) (m : t) : t * nat :=
  ({| root := root m; actions := actions m ++ [AnimationAction.create c] |},
   length (actions m)).

Definition update (i : nat) (f : AnimationAction.t -> AnimationAction.t)
  (m : t) : t :=
  {| root := root m; actions := alter f i (actions m) |}.
End AnimationMixer.

(** [scene.remove] and [scene.add] on the list of children; [add] first
    detaches the object from its parent. *)
Definition sceneRemove (o : Object3D.t) (children : list Object3D.t)
  : list Object3D.t :=
  filter (fun c => c ≠ o) children.

Definition sceneAdd (o : Object3D.t) (children : list Object3D.t)
  : list Object3D.t :=
  sceneRemove o children ++ [o].

(** ** The part of three-vrm the viewer touches

    The humanoid maps the bone names the model defines to their nodes;
    the expression manager holds a weight for each expression the model
    defines. *)
Module VRMHumanoid.
Record t : Type := { humanBones : list (string * Object3D.t) }.

Definition getRawBoneNode (h : t) (boneName : string) : option Object3D.t :=
  snd <$> List.find (fun e => String.eqb (fst e) boneName) (humanBones h).
End VRMHumanoid.

(** The expression manager of three-vrm.  [setValue] clamps the weight
    to the interval from 0 to 1 ([Math.max(Math.min(weight, 1), 0)]) and
    does nothing for a name the model does not define; [getValue] is
    [null] for such a name.  Neither throws. *)
Module VRMExpressionManager.
Definition saturate (weight : Q) : Q :=
  if Qle_bool 1 weight then 1%Q
  else if Qle_bool weight 0 then 0%Q
  else weight.

Definition setValue (name : string) (weight : Q) (m : gmap string Q)
  : gmap string Q :=
  match m !! name with
  | Some _ => <[name := saturate weight]> m
  | None => m
  end.

Definition getValue (name : string) (m : gmap string Q) : option Q :=
  m !! name.
End VRMExpressionManager.

Module VRM.
Record t : Type :=
  { scene : Object3D.t;
    humanoid : option VRMHumanoid.t;
    expressionManager : option (gmap string Q) }.

Definition setExpressionManager (m : gmap string Q) (v : t) : t :=
  {| scene := scene v; humanoid := humanoid v;
     expressionManager := Some m |}.
End VRM.

(** What the loaders hand to their callbacks. *)
Module FBX.
Record t : Type := { animations : list AnimationClip.t }.
End FBX.

Module GLTF.
Record t : Type :=
  { animations : list AnimationClip.t; userData_vrm : option VRM.t }.
End GLTF.

(** The value an error callback receives: an [Error], some other object
    with a [message] (given as [String(message)]), or anything else. *)
Inductive LoadError : Type :=
| ErrorInstance (message : string)
| ObjectWithMessage (message : string)
| OtherValue.

Definition errorMessage (e : LoadError) : string :=
  match e with
  | ErrorInstance m => m
  | ObjectWithMessage m => m
  | OtherValue => "Unknown error"
  end.

(** A call to [loader.load]. *)
Inductive LoadRequest : Type :=
| LoadModel (url : string)
| LoadFBX (url : string)
| LoadGLTFAnimation (url : string).

(** ** The full viewer *)
Module Viewer.
Import JsString.

(** *** Configuration *)
Definition RENDER_CONFIG_showControls : bool := true.
Definition RENDER_CONFIG_expressionWeight : Q := 1%Q.
Definition RENDER_CONFIG_expressions : list string :=
  [ "neutral"; "happy"; "angry"; "sad"; "relaxed"; "surprised";
    "aa"; "ih"; "ou"; "ee"; "oh"; "blink"; "blinkLeft"; "blinkRight" ].

(** *** State *)
Record State : Type :=
  { scene : list Object3D.t;
    currentVrm : option VRM.t;
    mixer : option AnimationMixer.t;
    activeAction : option nat;
    isLoading : bool;
    error : string;
    activeExpression : string;
    loads : list LoadRequest }.

Definition set_scene (x : list Object3D.t) (s : State) : State :=
  {| scene := x; currentVrm := currentVrm s; mixer := mixer s;
     activeAction := activeAction s; isLoading := isLoading s;
     error := error s; activeExpression := activeExpression s;
     loads := loads s |}.
Definition set_currentVrm (x : option VRM.t) (s : State) : State :=
  {| scene := scene s; currentVrm := x; mixer := mixer s;
     activeAction := activeAction s; isLoading := isLoading s;
     error := error s; activeExpression := activeExpression s;
     loads := loads s |}.
Definition set_mixer (x : option AnimationMixer.t) (s : State) : State :=
  {| scene := scene s; currentVrm := currentVrm s; mixer := x;
     activeAction := activeAction s; isLoading := isLoading s;
     error := error s; activeExpression := activeExpression s;
     loads := loads s |}.
Definition set_activeAction (x : option nat) (s : State) : State :=
  {| scene := scene s; currentVrm := currentVrm s; mixer := mixer s;
     activeAction := x; isLoading := isLoading s;
     error := error s; activeExpression := activeExpression s;
     loads := loads s |}.
Definition setIsLoading (x : bool) (s : State) : State :=
  {| scene := scene s; currentVrm := currentVrm s; mixer := mixer s;
     activeAction := activeAction s; isLoading := x;
     error := error s; activeExpression := activeExpression s;
     loads := loads s |}.
Definition setError (x : string) (s : State) : State :=
  {| scene := scene s; currentVrm := currentVrm s; mixer := mixer s;
     activeAction := activeAction s; isLoading := isLoading s;
     error := x; activeExpression := activeExpression s;
     loads := loads s |}.
Definition setActiveExpression (x : string) (s : State) : State :=
  {| scene := scene s; currentVrm := currentVrm s; mixer := mixer s;
     activeAction := activeAction s; isLoading := isLoading s;
     error := error s; activeExpression := x;
     loads := loads s |}.
(** [loader.load(url, ...)]: the request is handed to the loader. *)
Definition load (r : LoadRequest) (s : State) : State :=
  {| scene := scene s; currentVrm := currentVrm s; mixer := mixer s;
     activeAction := activeAction s; isLoading := isLoading s;
     error := error s; activeExpression := activeExpression s;
     loads := loads s ++ [r] |}.

(** The lights, the floor and the walls the effect adds to the scene. *)
Definition hemiLight : Object3D.t := {| Object3D.uuid := 1; Object3D.name := "" |}.
Definition dirLight : Object3D.t := {| Object3D.uuid := 2; Object3D.name := "" |}.
Definition ambLight : Object3D.t := {| Object3D.uuid := 3; Object3D.name := "" |}.
Definition floor : Object3D.t := {| Object3D.uuid := 4; Object3D.name := "" |}.
Definition backWall : Object3D.t := {| Object3D.uuid := 5; Object3D.name := "" |}.
Definition leftWall : Object3D.t := {| Object3D.uuid := 6; Object3D.name := "" |}.
Definition rightWall : Object3D.t := {| Object3D.uuid := 7; Object3D.name := "" |}.

Definition room : list Object3D.t :=
  [hemiLight; dirLight; ambLight; floor; backWall; leftWall; rightWall].

(** *** Bone mapping between FBX and VRM *)

(** The body of the [forEach] over the bone names: a bone the model
    lacks makes [getRawBoneNode] return [null], which is not an
    [Object3D], and the callback throws. *)
Definition mapBone (h : VRMHumanoid.t) (boneMapping : JsObject.t Object3D.t)
  (boneName : string) : string + JsObject.t Object3D.t :=
  match VRMHumanoid.getRawBoneNode h boneName with
  | None => inl "VRM bone is not an Object3D"
  | Some vrmBone =>
      let m := JsObject.set boneMapping boneName vrmBone in
      let lowerName := toLowerCase boneName in
      let m := JsObject.set m lowerName vrmBone in
      let m := if includes lowerName "spine"
               then JsObject.set m "spine" vrmBone else m in
      let m := if includes lowerName "neck"
               then JsObject.set m "neck" vrmBone else m in
      let m := if includes lowerName "head"
               then JsObject.set m "head" vrmBone else m in
      let m := if includes lowerName "lefthand"
               then JsObject.set (JsObject.set m "hand_l" vrmBone)
                      "left_hand" vrmBone
               else m in
      let m := if includes lowerName "righthand"
               then JsObject.set (JsObject.set m "hand_r" vrmBone)
                      "right_hand" vrmBone
               else m in
      inr m
  end.

Fixpoint mapBones (h : VRMHumanoid.t) (boneNames : list string)
  (boneMapping : JsObject.t Object3D.t) : string + JsObject.t Object3D.t :=
  match boneNames with
  | [] => inr boneMapping
  | boneName :: rest =>
      match mapBone h boneMapping boneName with
      | inl err => inl err
      | inr m => mapBones h rest m
      end
  end.

(** [VRMHumanBoneName] is the library's enumeration of humanoid bone
    names; its values are the parameter [boneNames]. *)
Definition buildBoneMapping (boneNames : list string)
  (humanoid : option VRMHumanoid.t) : string + JsObject.t Object3D.t :=
  match humanoid with
  | Some h => mapBones h boneNames []
  | None => inr []
  end.

(** The "closest match" loop: the first entry whose lowercased key
    contains the lowercased FBX name or is contained in it. *)
Definition looselyMatches (fbxNameLower key : string) : bool :=
  includes fbxNameLower (toLowerCase key)
  || includes (toLowerCase key) fbxNameLower.

Definition closestMatch (boneMapping : JsObject.t Object3D.t)
  (fbxNameLower : string) : option Object3D.t :=
  snd <$> List.find (fun e => looselyMatches fbxNameLower (fst e))
    boneMapping.

(** The [name] of the value bound to [vrmBone], as the template
    literal prints it, when [vrmBone] ends up truthy. *)
Definition findBoneName (boneMapping : JsObject.t Object3D.t)
  (fbxBoneName : string) : option string :=
  match JsObject.get boneMapping fbxBoneName with
  | JsObject.Own vrmBone => Some (Object3D.name vrmBone)
  | JsObject.Inherited (Some n) => Some n
  | JsObject.Inherited None => Some "undefined"
  | JsObject.Undefined =>
      Object3D.name <$> closestMatch boneMapping (toLowerCase fbxBoneName)
  end.

Definition newTrackClass (c : TrackClass) : TrackClass :=
  match c with
  | QuaternionKeyframeTrack => QuaternionKeyframeTrack
  | VectorKeyframeTrack => VectorKeyframeTrack
  | _ => BaseKeyframeTrack
  end.

(** The body of [clip.tracks.forEach]: the track pushed for [track],
    if any. *)
Definition retargetTrack (boneMapping : JsObject.t Object3D.t)
  (track : KeyframeTrack.t) : option KeyframeTrack.t :=
  match split "." (KeyframeTrack.name track) with
  | fbxBoneName :: property :: _ =>
      match findBoneName boneMapping fbxBoneName with
      | Some vrmBoneName =>
          Some {| KeyframeTrack.class :=
                    newTrackClass (KeyframeTrack.class track);
                  KeyframeTrack.name := vrmBoneName ++ "." ++ property;
                  KeyframeTrack.times := KeyframeTrack.times track;
                  KeyframeTrack.values := KeyframeTrack.values track |}
      | None => None
      end
  | _ => None
  end.

Definition retargetTracks (boneMapping : JsObject.t Object3D.t)
  (tracks : list KeyframeTrack.t) : list KeyframeTrack.t :=
  omap (retargetTrack boneMapping) tracks.

(** The part of the [try] block that computes [tracks]: [inl] is the
    message of the thrown error. *)
Definition retargetPass (boneNames : list string) (vrm : VRM.t)
  (clip : AnimationClip.t) : string + list KeyframeTrack.t :=
  match buildBoneMapping boneNames (VRM.humanoid vrm) with
  | inl err => inl err
  | inr boneMapping =>
      inr (retargetTracks boneMapping (AnimationClip.tracks clip))
  end.

Definition fallbackDuration : Q := 2%Q.

Definition positionTrack : KeyframeTrack.t :=
  {| KeyframeTrack.class := VectorKeyframeTrack;
     KeyframeTrack.name := ".position";
     KeyframeTrack.times := [0%Q; (fallbackDuration / 2)%Q; fallbackDuration];
     KeyframeTrack.values :=
       [0%Q; 0%Q; 0%Q; 0%Q; (1 # 10)%Q; 0%Q; 0%Q; 0%Q; 0%Q] |}.

Definition customClip : AnimationClip.t :=
  {| AnimationClip.name := "fallback-motion";
     AnimationClip.duration := fallbackDuration;
     AnimationClip.tracks := [positionTrack] |}.

Definition newClip (clip : AnimationClip.t) (tracks : list KeyframeTrack.t)
  : AnimationClip.t :=
  {| AnimationClip.name := "retargeted-animation";
     AnimationClip.duration := AnimationClip.duration clip;
     AnimationClip.tracks := tracks |}.

(** *** Animation control *)

(** "Clear previous animation": fade the active action out and forget
    it. *)
Definition clearActiveAction (s : State) : State :=
  match activeAction s with
  | Some a =>
      set_activeAction None
        (set_mixer
           (AnimationMixer.update a (AnimationAction.fadeOut (1 # 2)%Q)
              <$> mixer s) s)
  | None => s
  end.

Definition playAnimation (animationUrl : string) (s : State) : State :=
  match currentVrm s with
  | None => s
  | Some _ =>
      if negb (truthy animationUrl) then s
      else
        let s := clearActiveAction s in
        let isFBX := endsWith (toLowerCase animationUrl) ".fbx" in
        if isFBX then load (LoadFBX animationUrl) s
        else load (LoadGLTFAnimation animationUrl) s
  end.

(** "Create animation mixer if it doesn't exist". *)
Definition ensureMixer (vrm : VRM.t) (s : State) : AnimationMixer.t :=
  match mixer s with
  | Some m => m
  | None => AnimationMixer.create (VRM.scene vrm)
  end.

(** [action.reset().fadeIn(0.5).play(); activeAction = action]. *)
Definition startAction (m : AnimationMixer.t) (a : nat) (s : State) : State :=
  set_activeAction (Some a)
    (set_mixer
       (Some (AnimationMixer.update a
                (fun act => AnimationAction.play
                   (AnimationAction.fadeIn (1 # 2)%Q
                      (AnimationAction.reset act))) m)) s).

(** The looping set-up both branches of the FBX path apply to their
    action. *)
Definition configureLoop (a : AnimationAction.t) : AnimationAction.t :=
  AnimationAction.setTimeScale 1%Q
    (AnimationAction.setLoop LoopRepeat Infinity
       (AnimationAction.setClampWhenFinished false a)).

(** The success callback of the FBX loader. *)
Definition fbxOnLoad (boneNames : list string) (fbx : FBX.t) (s : State)
  : State :=
  match currentVrm s with
  | None => s
  | Some vrm =>
      let m := ensureMixer vrm s in
      match FBX.animations fbx with
      | [] => setError "No animation found in the FBX file"
                (set_mixer (Some m) s)
      | first :: _ =>
          match retargetPass boneNames vrm first with
          | inl message =>
              setError ("Error applying animation: " ++ message)
                (set_mixer (Some m) s)
          | inr tracks =>
              let played :=
                match tracks with
                | [] => customClip
                | _ :: _ => newClip first tracks
                end in
              let '(m, action) := AnimationMixer.clipAction played m in
              let m := AnimationMixer.update action configureLoop m in
              startAction m action s
          end
      end
  end.

(** The success callback of the GLTF loader used for animations. *)
Definition gltfOnLoad (gltf : GLTF.t) (s : State) : State :=
  match currentVrm s with
  | None => s
  | Some vrm =>
      let m := ensureMixer vrm s in
      match GLTF.animations gltf with
      | [] => set_mixer (Some m) s
      | clip :: _ =>
          let '(m, action) := AnimationMixer.clipAction clip m in
          startAction m action s
      end
  end.

(** The error callback of both animation loaders. *)
Definition animationOnError (e : LoadError) (s : State) : State :=
  setError ("Failed to load animation: " ++ errorMessage e) s.

Definition stopAnimation (s : State) : State := clearActiveAction s.

(** *** Expressions *)

(** [setValue] does not throw, so the [catch] inside the loop is never
    entered. *)
Definition resetExpressions (s : State) : State :=
  match currentVrm s with
  | None => s
  | Some vrm =>
      match VRM.expressionManager vrm with
      | None => s
      | Some manager =>
          let manager :=
            foldl (fun m expr => VRMExpressionManager.setValue expr 0%Q m)
              manager RENDER_CONFIG_expressions in
          setActiveExpression ""
            (set_currentVrm
               (Some (VRM.setExpressionManager manager vrm)) s)
      end
  end.

(** [weight] is [None] when the caller omits it. *)
Definition setExpression (expression : string) (weight : option Q)
  (s : State) : State :=
  let weight := default RENDER_CONFIG_expressionWeight weight in
  match currentVrm s with
  | None => s
  | Some vrm =>
      match VRM.expressionManager vrm with
      | None => s
      | Some _ =>
          let s := resetExpressions s in
          match currentVrm s with
          | Some vrm =>
              match VRM.expressionManager vrm with
              | Some manager =>
                  setActiveExpression expression
                    (set_currentVrm
                       (Some (VRM.setExpressionManager
                                (VRMExpressionManager.setValue
                                   expression weight manager) vrm)) s)
              | None => s
              end
          | None => s
          end
      end
  end.

(** The weight an expression contributes: none when the manager has no
    entry for it. *)
Definition expressionWeight (s : State) (expr : string) : Q :=
  match currentVrm s with
  | Some vrm =>
      match VRM.expressionManager vrm with
      | Some manager =>
          default 0%Q (VRMExpressionManager.getValue expr manager)
      | None => 0%Q
      end
  | None => 0%Q
  end.

(** What [getValue] reads on the manager of the current model: nothing
    without a model, without a manager, or for an expression the model
    does not define. *)
Definition expressionValue (s : State) (expr : string) : option Q :=
  match currentVrm s with
  | Some vrm =>
      match VRM.expressionManager vrm with
      | Some manager => VRMExpressionManager.getValue expr manager
      | None => None
      end
  | None => None
  end.

(** *** Loading a model *)

Definition loadVRM (url : string) (s : State) : State :=
  if negb (truthy url) then s
  else
    let s := setError "" (setIsLoading true s) in
    let s :=
      match currentVrm s with
      | Some vrm =>
          set_currentVrm None
            (set_scene (sceneRemove (VRM.scene vrm) (scene s)) s)
      | None => s
      end in
    let s := set_activeAction None (set_mixer None s) in
    let s := resetExpressions s in
    load (LoadModel url) s.

(** The success callback of the model loader.  The shadow flags of the
    meshes and the placement of the model are not part of the state. *)
Definition vrmOnLoad (gltf : GLTF.t) (s : State) : State :=
  match GLTF.userData_vrm gltf with
  | Some vrm =>
      setIsLoading false
        (set_scene (sceneAdd (VRM.scene vrm) (scene s))
           (set_currentVrm (Some vrm) s))
  | None =>
      setIsLoading false
        (setError "Failed to load VRM model: No VRM data found" s)
  end.

(** The error callback of the model loader. *)
Definition vrmOnError (e : LoadError) (s : State) : State :=
  setIsLoading false
    (setError ("Failed to load VRM model: " ++ errorMessage e) s).

(** *** The imperative handles *)

(** The container element, with the optional methods of the
    [VRMContainer] type. *)
Module VRMContainer.
Record t : Type :=
  { loadVRM : option (string -> State -> State);
    playAnimation : option (string -> State -> State);
    setExpression : option (string -> option Q -> State -> State) }.

(** The [div] as React hands it over, before the effect ran. *)
Definition element : t :=
  {| loadVRM := None; playAnimation := None; setExpression := None |}.
End VRMContainer.

Module AnimationControl.
Record t : Type :=
  { playAnimation : string -> State -> State;
    stopAnimation : State -> State;
    setExpression : string -> option Q -> State -> State;
    resetExpressions : State -> State }.
End AnimationControl.

Record Component : Type :=
  { containerRef : option VRMContainer.t;
    animationControlRef : option AnimationControl.t;
    modelUrl : string;
    animationUrl : string;
    viewer : State }.

Definition set_viewer (s : State) (c : Component) : Component :=
  {| containerRef := containerRef c;
     animationControlRef := animationControlRef c;
     modelUrl := modelUrl c; animationUrl := animationUrl c;
     viewer := s |}.

(** The scene and the closure variables a run of the effect starts
    from; the React state is kept. *)
Definition setUp (s : State) : State :=
  {| scene := room; currentVrm := None; mixer := None;
     activeAction := None; isLoading := isLoading s; error := error s;
     activeExpression := activeExpression s; loads := loads s |}.

(** The body of the effect. *)
Definition useEffect (c : Component) : Component :=
  match containerRef c with
  | None => c
  | Some _ =>
      let s := setUp (viewer c) in
      let control :=
        {| AnimationControl.playAnimation := playAnimation;
           AnimationControl.stopAnimation := stopAnimation;
           AnimationControl.setExpression := setExpression;
           AnimationControl.resetExpressions := resetExpressions |} in
      let container :=
        {| VRMContainer.loadVRM := Some loadVRM;
           VRMContainer.playAnimation := Some playAnimation;
           VRMContainer.setExpression := Some setExpression |} in
      let s := if truthy (modelUrl c) then loadVRM (modelUrl c) s else s in
      {| containerRef := Some container;
         animationControlRef := Some control;
         modelUrl := modelUrl c; animationUrl := animationUrl c;
         viewer := s |}
  end.

(** The component when its effect first runs: the [div] is attached,
    the React state has its initial values. *)
Definition rendered : Component :=
  {| containerRef := Some VRMContainer.element;
     animationControlRef := None;
     modelUrl := "/models/daw.vrm"; animationUrl := "";
     viewer := {| scene := []; currentVrm := None; mixer := None;
                  activeAction := None; isLoading := false; error := "";
                  activeExpression := ""; loads := [] |} |}.

(** The state the first run of the effect starts from. *)
Definition initialState : State := setUp (viewer rendered).

(** The handlers of the form. *)
Definition handleLoadModel (c : Component) : Component :=
  if negb (truthy (modelUrl c)) then c
  else match containerRef c with
       | Some container =>
           match VRMContainer.loadVRM container with
           | Some f => set_viewer (f (modelUrl c) (viewer c)) c
           | None => c
           end
       | None => c
       end.

Definition handlePlayAnimation (c : Component) : Component :=
  if negb (truthy (animationUrl c)) then c
  else match containerRef c with
       | Some container =>
           match VRMContainer.playAnimation container with
           | Some f => set_viewer (f (animationUrl c) (viewer c)) c
           | None => c
           end
       | None => c
       end.

Definition handleStopAnimation (c : Component) : Component :=
  match animationControlRef c with
  | Some control =>
      set_viewer (AnimationControl.stopAnimation control (viewer c)) c
  | None => c
  end.

Definition handleSetExpression (expression : string) (c : Component)
  : Component :=
  match containerRef c with
  | Some container =>
      match VRMContainer.setExpression container with
      | Some f => set_viewer (f expression None (viewer c)) c
      | None => c
      end
  | None => c
  end.

Definition handleResetExpressions (c : Component) : Component :=
  match animationControlRef c with
  | Some control =>
      set_viewer (AnimationControl.resetExpressions control (viewer c)) c
  | None => c
  end.

(** The button grid of the expression tab: one button per preset, each
    bound to [handleSetExpression] of its preset. *)
Definition expressionButtons : list (string * (Component -> Component)) :=
  map (fun expr => (expr, handleSetExpression expr))
    RENDER_CONFIG_expressions.

(** *** Runs of the viewer

    What can happen to a mounted viewer: a call through one of the
    handles, or a loader firing one of its callbacks. *)
Inductive Event : Type :=
| CallLoadVRM (url : string)
| ModelLoaded (gltf : GLTF.t)
| ModelFailed (e : LoadError)
| CallPlayAnimation (animationUrl : string)
| FbxLoaded (fbx : FBX.t)
| GltfLoaded (gltf : GLTF.t)
| AnimationFailed (e : LoadError)
| CallStopAnimation
| CallSetExpression (expression : string) (weight : option Q)
| CallResetExpressions.

Definition step (boneNames : list string) (e : Event) (s : State) : State :=
  match e with
  | CallLoadVRM url => loadVRM url s
  | ModelLoaded gltf => vrmOnLoad gltf s
  | ModelFailed err => vrmOnError err s
  | CallPlayAnimation url => playAnimation url s
  | FbxLoaded fbx => fbxOnLoad boneNames fbx s
  | GltfLoaded gltf => gltfOnLoad gltf s
  | AnimationFailed err => animationOnError err s
  | CallStopAnimation => stopAnimation s
  | CallSetExpression expression weight => setExpression expression weight s
  | CallResetExpressions => resetExpressions s
  end.

Definition run (boneNames : list string) (es : list Event) (s : State)
  : State :=
  foldl (fun s e => step boneNames e s) s es.

(** The models in the scene: the children that are not part of the
    room. *)
Definition modelsInScene (s : State) : list Object3D.t :=
  filter (fun o => o ∉ room) (scene s).

(** The actions of the mixer that drive the model. *)
Definition runningActions (s : State) : list AnimationAction.t :=
  match mixer s with
  | Some m =>
      filter (fun a => AnimationAction.running a = true)
        (AnimationMixer.actions m)
  | None => []
  end.

(** The scene holds no model but the current one. *)
Definition sceneTracksModel (s : State) : Prop :=
  modelsInScene s = []
  \/ exists o, VRM.scene <$> currentVrm s = Some o /\ modelsInScene s = [o].

(** No action of the mixer runs but the active one. *)
Definition mixerTracksAction (s : State) : Prop :=
  forall m i action,
    mixer s = Some m ->
    AnimationMixer.actions m !! i = Some action ->
    AnimationAction.running action = true ->
    activeAction s = Some i.

(** An action is active only while a model is loaded. *)
Definition actionNeedsModel (s : State) : Prop :=
  activeAction s <> None -> currentVrm s <> None.

Definition wellKept (s : State) : Prop :=
  sceneTracksModel s /\ mixerTracksAction s /\ actionNeedsModel s.

(** A completion arrives alone when the slot it fills is still empty:
    no other load of the same kind completed since the call that
    requested it. *)
Definition arrivesAlone (e : Event) (s : State) : Prop :=
  match e with
  | ModelLoaded _ => currentVrm s = None
  | FbxLoaded _ | GltfLoaded _ => activeAction s = None
  | _ => True
  end.

(** A run in which every completion arrives alone. *)
Fixpoint serial (boneNames : list string) (es : list Event) (s : State)
  : Prop :=
  match es with
  | [] => True
  | e :: es' => arrivesAlone e s /\ serial boneNames es' (step boneNames e s)
  end.

End Viewer.

(** ** The simple viewer of [src/app/page.tsx] *)
Module Page.
Import JsString.

Record State : Type :=
  { scene : list Object3D.t;
    currentVrm : option VRM.t;
    isLoading : bool;
    error : string;
    loads : list LoadRequest }.

Definition loadVRM (url : string) (s : State) : State :=
  if negb (truthy url) then s
  else
    let children :=
      match currentVrm s with
      | Some vrm => sceneRemove (VRM.scene vrm) (scene s)
      | None => scene s
      end in
    {| scene := children; currentVrm := None; isLoading := true;
       error := ""; loads := loads s ++ [LoadModel url] |}.

Definition vrmOnLoad (gltf : GLTF.t) (s : State) : State :=
  match GLTF.userData_vrm gltf with
  | Some vrm =>
      {| scene := sceneAdd (VRM.scene vrm) (scene s);
         currentVrm := Some vrm; isLoading := false;
         error := error s; loads := loads s |}
  | None =>
      {| scene := scene s; currentVrm := currentVrm s; isLoading := false;
         error := "Failed to load VRM model: No VRM data found";
         loads := loads s |}
  end.

Definition vrmOnError (e : LoadError) (s : State) : State :=
  {| scene := scene s; currentVrm := currentVrm s; isLoading := false;
     error := "Failed to load VRM model: " ++ errorMessage e;
     loads := loads s |}.

Definition handleLoadModel (url : string) (s : State) : State :=
  loadVRM url s.

(** The container of this viewer carries [loadVRM] only. *)
Module VRMContainer.
Record t : Type := { loadVRM : option (string -> State -> State) }.
Definition element : t := {| loadVRM := None |}.
End VRMContainer.

Definition expose (container : option VRMContainer.t)
  : option VRMContainer.t :=
  match container with
  | Some _ => Some {| VRMContainer.loadVRM := Some handleLoadModel |}
  | None => None
  end.

End Page.

(** ** Colours

    [hexToColor] of both viewers: [parseInt(hex.replace("#", "0x"), 16)].
    [None] stands for [NaN].  White space is taken over the ASCII range,
    and the value read is exact below 2^53. *)
Module Colour.

(** [s.replace(pattern, replacement)] for a one-character pattern: the
    first occurrence only. *)
Fixpoint replace (pattern : ascii) (replacement : string) (s : string)
  : string :=
  match s with
  | EmptyString => EmptyString
  | String c r =>
      if Ascii.eqb c pattern then replacement ++ r
      else String c (replace pattern replacement r)
  end.

Definition isWhiteSpace (c : ascii) : bool :=
  let n := N_of_ascii c in
  ((9 <=? n)%N && (n <=? 13)%N) || (n =? 32)%N.

Fixpoint trimStart (s : string) : string :=
  match s with
  | EmptyString => EmptyString
  | String c r => if isWhiteSpace c then trimStart r else s
  end.

Definition hexDigit (c : ascii) : option N :=
  let n := N_of_ascii c in
  if ((48 <=? n)%N && (n <=? 57)%N)%bool then Some (n - 48)%N
  else if ((97 <=? n)%N && (n <=? 102)%N)%bool then Some (n - 87)%N
  else if ((65 <=? n)%N && (n <=? 70)%N)%bool then Some (n - 55)%N
  else None.

(** The value of the longest prefix of digits, read after [acc]. *)
Fixpoint digits (acc : N) (s : string) : N :=
  match s with
  | EmptyString => acc
  | String c r =>
      match hexDigit c with
      | Some d => digits (16 * acc + d)%N r
      | None => acc
      end
  end.

(** [parseInt(s, 16)]: leading white space, a sign, a [0x] or [0X]
    prefix, then digits up to the first other character; [NaN] when
    there is no digit. *)
Definition parseInt16 (s : string) : option Z :=
  let s := trimStart s in
  let '(sign, s) :=
    match s with
    | String "-" r => ((-1)%Z, r)
    | String "+" r => (1%Z, r)
    | _ => (1%Z, s)
    end in
  let s :=
    match s with
    | String "0" (String "x" r) => r
    | String "0" (String "X" r) => r
    | _ => s
    end in
  match s with
  | EmptyString => None
  | String c r =>
      match hexDigit c with
      | Some d => Some (sign * Z.of_N (digits d r))%Z
      | None => None
      end
  end.

Definition hexToColor (hex : string) : option Z :=
  parseInt16 (replace "#" "0x" hex).

(** The lowercase digit of a value below 16, and the [k]-digit
    hexadecimal numeral of a number: the notation colours are written
    in. *)
Definition digitChar (d : N) : ascii :=
  ascii_of_N (if (d <? 10)%N then 48 + d else 87 + d)%N.

Fixpoint hexString (k : nat) (n : N) : string :=
  match k with
  | O => EmptyString
  | S k' =>
      String (digitChar (n / 16 ^ N.of_nat k')%N)
        (hexString k' (n mod 16 ^ N.of_nat k')%N)
  end.

End Colour.

(** ** Reading the bone-mapping table

    The keys one pass of the table-building loop writes for a bone, all
    with the node of that bone, and the bone whose pass wrote a key
    last. *)
Module BoneTable.
Import JsString.

Definition writtenKeys (boneName : string) : list string :=
  let lowerName := toLowerCase boneName in
  [boneName; lowerName]
  ++ (if includes lowerName "spine" then ["spine"] else [])
  ++ (if includes lowerName "neck" then ["neck"] else [])
  ++ (if includes lowerName "head" then ["head"] else [])
  ++ (if includes lowerName "lefthand" then ["hand_l"; "left_hand"] else [])
  ++ (if includes lowerName "righthand" then ["hand_r"; "right_hand"] else []).

Definition writes (key boneName : string) : bool :=
  existsb (String.eqb key) (writtenKeys boneName).

Definition lastWriter (boneNames : list string) (key : string)
  : option string :=
  List.find (writes key) (rev boneNames).

(** Assigning one value under several keys in turn. *)
Definition setAll {V} (keys : list string) (v : V) (o : JsObject.t V)
  : JsObject.t V :=
  fold_left (fun o k => JsObject.set o k v) keys o.

End BoneTable.

(** ** The two viewers side by side

    The part of the full viewer's state the simple viewer has too. *)
Definition toPage (s : Viewer.State) : Page.State :=
  {| Page.scene := Viewer.scene s;
     Page.currentVrm := Viewer.currentVrm s;
     Page.isLoading := Viewer.isLoading s;
     Page.error := Viewer.error s;
     Page.loads := Viewer.loads s |}.

(** The mixer, when there is one, animates the scene of the current
    model. *)
Definition mixerFollowsModel (s : Viewer.State) : Prop :=
  forall m, Viewer.mixer s = Some m ->
            VRM.scene <$> Viewer.currentVrm s = Some (AnimationMixer.root m).

(** ** Sample models and clips

    Concrete inputs on which the viewer is run below. *)
Module Samples.
Import Viewer.

Definition hipsNode : Object3D.t :=
  {| Object3D.uuid := 10; Object3D.name := "J_Bip_C_Hips" |}.
Definition handNode : Object3D.t :=
  {| Object3D.uuid := 11; Object3D.name := "J_Bip_L_Hand" |}.
Definition jawNode : Object3D.t :=
  {| Object3D.uuid := 12; Object3D.name := "J_Adj_C_Jaw" |}.

(** Three names of the bone enumeration; [jaw] is optional in a VRM
    model. *)
Definition boneNames : list string := ["hips"; "jaw"; "leftHand"].

(** The expressions the sample models define, all at rest: [neutral],
    [happy] and [lookUp].  They define no [angry]. *)
Definition presetWeights : gmap string Q :=
  <["lookUp" := 0%Q]> (<["happy" := 0%Q]> (<["neutral" := 0%Q]> ∅)).

(** A model without a jaw bone. *)
Definition avatar : VRM.t :=
  {| VRM.scene := {| Object3D.uuid := 20; Object3D.name := "VRMRoot" |};
     VRM.humanoid :=
       Some {| VRMHumanoid.humanBones :=
                 [("hips", hipsNode); ("leftHand", handNode)] |};
     VRM.expressionManager := Some presetWeights |}.

(** A model with every bone of [boneNames]. *)
Definition fullAvatar : VRM.t :=
  {| VRM.scene := {| Object3D.uuid := 21; Object3D.name := "VRMRoot" |};
     VRM.humanoid :=
       Some {| VRMHumanoid.humanBones :=
                 [("hips", hipsNode); ("jaw", jawNode);
                  ("leftHand", handNode)] |};
     VRM.expressionManager := Some presetWeights |}.

(** A model without humanoid and without expressions. *)
Definition statue : VRM.t :=
  {| VRM.scene := {| Object3D.uuid := 22; Object3D.name := "Statue" |};
     VRM.humanoid := None;
     VRM.expressionManager := None |}.

Definition sampleTimes : list Q := [0%Q; 1%Q].
Definition sampleValues : list Q :=
  [0%Q; 0%Q; 0%Q; 1%Q; 0%Q; (1 # 2)%Q; 0%Q; (1 # 2)%Q].

Definition track (name : string) : KeyframeTrack.t :=
  {| KeyframeTrack.class := QuaternionKeyframeTrack;
     KeyframeTrack.name := name;
     KeyframeTrack.times := sampleTimes;
     KeyframeTrack.values := sampleValues |}.

Definition clipOf (names : list string) : AnimationClip.t :=
  {| AnimationClip.name := "Take 001";
     AnimationClip.duration := 1%Q;
     AnimationClip.tracks := map track names |}.

Definition fbxOf (names : list string) : FBX.t :=
  {| FBX.animations := [clipOf names] |}.

Definition modelFile (vrm : VRM.t) : GLTF.t :=
  {| GLTF.animations := []; GLTF.userData_vrm := Some vrm |}.

Definition animationFile (names : list string) : GLTF.t :=
  {| GLTF.animations := [clipOf names]; GLTF.userData_vrm := None |}.

(** The viewer once [vrm] has been loaded. *)
Definition showing (vrm : VRM.t) : State :=
  run boneNames [CallLoadVRM "/models/daw.vrm"; ModelLoaded (modelFile vrm)]
    initialState.
End Samples.

(** * Properties *)

(** ** Strings and tables *)
Section Strings.
Import JsString.

Lemma startsWith_empty s : startsWith s "" = true.
Proof. destruct s; reflexivity. Qed.

Lemma includes_empty s : includes s "" = true.
Proof. destruct s; reflexivity. Qed.

Lemma includes_dot_cons c r :
  includes (String c r) "." = Ascii.eqb c "." || includes r ".".
Proof.
  cbn [includes startsWith]. rewrite startsWith_empty, andb_true_r.
  now rewrite (Ascii.eqb_sym "." c).
Qed.

(** A name without a dot splits into itself alone. *)
Lemma split_no_dot s : includes s "." = false -> split "." s = [s].
Proof.
  induction s as [|c r IH]; [reflexivity|].
  rewrite includes_dot_cons. intros [Hc Hr]%orb_false_elim.
  cbn [split]. rewrite Hc, (IH Hr). reflexivity.
Qed.

(** A name with a dot splits into at least two pieces; the first is
    the part before the first dot. *)
Lemma split_dot s :
  includes s "." = true ->
  exists bone property more,
    split "." s = bone :: property :: more
    /\ includes bone "." = false
    /\ startsWith s (bone ++ ".") = true.
Proof.
  induction s as [|c r IH]; [discriminate|].
  rewrite includes_dot_cons. cbn [split].
  destruct (Ascii.eqb_spec c ".") as [->|Hc].
  - intros _. destruct (split "." r) as [|p ps] eqn:Hr.
    + destruct r; cbn in Hr; [discriminate|].
      destruct (Ascii.eqb a "."); [discriminate|].
      destruct (split "." r); discriminate.
    + exists "", p, ps. repeat split.
      change ("" ++ ".") with ".". cbn. now rewrite startsWith_empty.
  - cbn [orb]. intros Hr. destruct (IH Hr) as (b & p & ps & -> & Hb & Hs).
    exists (String c b), p, ps. repeat split.
    + rewrite includes_dot_cons, Hb.
      destruct (Ascii.eqb_spec c "."); [contradiction|reflexivity].
    + change (String c b ++ ".") with (String c (b ++ ".")).
      cbn [startsWith]. now rewrite Ascii.eqb_refl, Hs.
Qed.

Lemma truthy_true s : truthy s = true <-> s <> "".
Proof.
  unfold truthy. destruct (String.eqb_spec s ""); cbn; split;
    congruence.
Qed.

Lemma getOwn_Some {V} (o : JsObject.t V) k v :
  JsObject.getOwn o k = Some v -> In (k, v) o.
Proof.
  unfold JsObject.getOwn.
  destruct (List.find _ o) as [[k' v']|] eqn:Hf; cbn; [|discriminate].
  intros [= ->]. apply find_some in Hf as [Hin Hk].
  cbn in Hk. apply String.eqb_eq in Hk. now subst.
Qed.

Lemma getOwn_None {V} (o : JsObject.t V) k :
  JsObject.getOwn o k = None -> forall v, ~ In (k, v) o.
Proof.
  unfold JsObject.getOwn.
  destruct (List.find _ o) as [e|] eqn:Hf; cbn; [discriminate|].
  intros _ v Hin. apply (find_none _ _ Hf) in Hin.
  cbn in Hin. now rewrite String.eqb_refl in Hin.
Qed.
End Strings.

(** ** The track pass of the retargeting *)
Section Retargeting.
Import JsString Viewer.

Lemma closestMatch_Some boneMapping fbxBoneName vrmBone :
  closestMatch boneMapping (toLowerCase fbxBoneName) = Some vrmBone ->
  exists key, In (key, vrmBone) boneMapping
              /\ looselyMatches (toLowerCase fbxBoneName) key = true.
Proof.
  unfold closestMatch.
  destruct (List.find _ boneMapping) as [[k v]|] eqn:Hf; cbn;
    [|discriminate].
  intros [= ->]. apply find_some in Hf as [Hin Hk]. eauto.
Qed.

Lemma closestMatch_None boneMapping fbxBoneName :
  closestMatch boneMapping (toLowerCase fbxBoneName) = None ->
  forall key vrmBone, In (key, vrmBone) boneMapping ->
    looselyMatches (toLowerCase fbxBoneName) key = false.
Proof.
  unfold closestMatch.
  destruct (List.find _ boneMapping) as [e|] eqn:Hf; cbn; [discriminate|].
  intros _ key vrmBone Hin. exact (find_none _ _ Hf _ Hin).
Qed.

(** A retargeted track keeps the keyframes of its source. *)
Lemma retargetTrack_keeps_keyframes boneMapping track track' :
  retargetTrack boneMapping track = Some track' ->
  KeyframeTrack.times track' = KeyframeTrack.times track
  /\ KeyframeTrack.values track' = KeyframeTrack.values track.
Proof.
  unfold retargetTrack.
  destruct (split "." _) as [|b [|p ps]]; try discriminate.
  destruct (findBoneName boneMapping b); [|discriminate].
  intros [= <-]. split; reflexivity.
Qed.

(** A track whose name has no dot is dropped. *)
Lemma retargetTrack_no_dot boneMapping track :
  includes (KeyframeTrack.name track) "." = false ->
  retargetTrack boneMapping track = None.
Proof.
  intros H. unfold retargetTrack. now rewrite (split_no_dot _ H).
Qed.

(** A bone name that is a key of the table is mapped to the node
    stored under the first such key. *)
Lemma retargetTrack_exact_key boneMapping track bone property more vrmBone :
  split "." (KeyframeTrack.name track) = bone :: property :: more ->
  JsObject.getOwn boneMapping bone = Some vrmBone ->
  retargetTrack boneMapping track =
    Some {| KeyframeTrack.class := newTrackClass (KeyframeTrack.class track);
            KeyframeTrack.name := Object3D.name vrmBone ++ "." ++ property;
            KeyframeTrack.times := KeyframeTrack.times track;
            KeyframeTrack.values := KeyframeTrack.values track |}.
Proof.
  intros Hs Hk. unfold retargetTrack, findBoneName, JsObject.get.
  now rewrite Hs, Hk.
Qed.

(** A bone name that is no key, and no inherited member name, is
    mapped through the first key it loosely matches; without such a
    key the track is dropped. *)
Lemma retargetTrack_closest boneMapping track bone property more :
  split "." (KeyframeTrack.name track) = bone :: property :: more ->
  JsObject.getOwn boneMapping bone = None ->
  JsObject.getOwn JsObject.prototypeMembers bone = None ->
  retargetTrack boneMapping track =
    match closestMatch boneMapping (toLowerCase bone) with
    | Some vrmBone =>
        Some {| KeyframeTrack.class :=
                  newTrackClass (KeyframeTrack.class track);
                KeyframeTrack.name :=
                  Object3D.name vrmBone ++ "." ++ property;
                KeyframeTrack.times := KeyframeTrack.times track;
                KeyframeTrack.values := KeyframeTrack.values track |}
    | None => None
    end.
Proof.
  intros Hs Hk Hp. unfold retargetTrack, findBoneName, JsObject.get.
  rewrite Hs, Hk, Hp. now destruct (closestMatch _ _).
Qed.

Lemma retargetTrack_unmatched boneMapping track bone property more :
  split "." (KeyframeTrack.name track) = bone :: property :: more ->
  JsObject.getOwn JsObject.prototypeMembers bone = None ->
  (forall key vrmBone, In (key, vrmBone) boneMapping ->
     key <> bone /\ looselyMatches (toLowerCase bone) key = false) ->
  retargetTrack boneMapping track = None.
Proof.
  intros Hs Hp Hno.
  assert (Hk : JsObject.getOwn boneMapping bone = None).
  { destruct (JsObject.getOwn boneMapping bone) as [v|] eqn:E; [|easy].
    apply getOwn_Some in E. now destruct (Hno _ _ E). }
  rewrite (retargetTrack_closest _ _ _ _ _ Hs Hk Hp).
  destruct (closestMatch _ _) as [v|] eqn:E; [|reflexivity].
  apply closestMatch_Some in E as (key & Hin & Hm).
  destruct (Hno _ _ Hin) as [_ Hf]. congruence.
Qed.

(** With every bone of the enumeration present the table is built. *)
Lemma mapBones_complete h boneNames :
  forall boneMapping,
    Forall (fun b => is_Some (VRMHumanoid.getRawBoneNode h b)) boneNames ->
    exists m, mapBones h boneNames boneMapping = inr m.
Proof.
  induction boneNames as [|b bs IH]; intros m0 Hall; cbn.
  - eauto.
  - inversion Hall as [|? ? [node Hb] Hbs]; subst.
    unfold mapBone. rewrite Hb. apply IH, Hbs.
Qed.

(** With one bone of the enumeration absent the table is not built,
    whatever the other bones are. *)
Lemma mapBones_missing h boneNames :
  forall boneMapping,
    Exists (fun b => VRMHumanoid.getRawBoneNode h b = None) boneNames ->
    mapBones h boneNames boneMapping = inl "VRM bone is not an Object3D".
Proof.
  induction boneNames as [|b bs IH]; intros m0 Hex; cbn.
  - inversion Hex.
  - unfold mapBone.
    destruct (VRMHumanoid.getRawBoneNode h b) as [node|] eqn:Hb;
      [|reflexivity].
    apply IH. inversion Hex; subst; [congruence|assumption].
Qed.
End Retargeting.

(** ** Starting an action *)
Section Actions.
Import Viewer.
Local Open Scope list_scope.

Lemma alter_snoc {A} (f : A -> A) (l : list A) (x : A) :
  alter f (List.length l) (l ++ [x]) = l ++ [f x].
Proof. induction l as [|y l IH]; cbn; [reflexivity|]. now f_equal. Qed.

Lemma lookup_snoc {A} (l : list A) (x : A) :
  (l ++ [x]) !! List.length l = Some x.
Proof. now apply list_lookup_middle. Qed.

(** What the FBX callback leaves behind once the track pass is
    through: the retargeted clip, or the fallback clip when no track
    was mapped, as a new looping action that fades in. *)
Lemma fbxOnLoad_plays boneNames fbx s vrm first rest tracks :
  currentVrm s = Some vrm ->
  FBX.animations fbx = first :: rest ->
  retargetPass boneNames vrm first = inr tracks ->
  fbxOnLoad boneNames fbx s =
    let m := ensureMixer vrm s in
    let played := match tracks with
                  | [] => customClip
                  | _ :: _ => newClip first tracks
                  end in
    set_activeAction (Some (List.length (AnimationMixer.actions m)))
      (set_mixer
         (Some {| AnimationMixer.root := AnimationMixer.root m;
                  AnimationMixer.actions :=
                    AnimationMixer.actions m ++
                    [AnimationAction.play
                       (AnimationAction.fadeIn (1 # 2)%Q
                          (AnimationAction.reset
                             (configureLoop
                                (AnimationAction.create played))))] |}) s).
Proof.
  intros Hv Ha Hp. unfold fbxOnLoad. rewrite Hv, Ha, Hp.
  cbn zeta. unfold AnimationMixer.clipAction, startAction,
    AnimationMixer.update. cbn [AnimationMixer.actions AnimationMixer.root].
  now rewrite !alter_snoc.
Qed.

(** The GLTF callback plays the first clip of the file as it is. *)
Lemma gltfOnLoad_plays anims vrmData s vrm clip rest :
  currentVrm s = Some vrm ->
  anims = clip :: rest ->
  gltfOnLoad {| GLTF.animations := anims; GLTF.userData_vrm := vrmData |} s =
    let m := ensureMixer vrm s in
    set_activeAction (Some (List.length (AnimationMixer.actions m)))
      (set_mixer
         (Some {| AnimationMixer.root := AnimationMixer.root m;
                  AnimationMixer.actions :=
                    AnimationMixer.actions m ++
                    [AnimationAction.play
                       (AnimationAction.fadeIn (1 # 2)%Q
                          (AnimationAction.reset
                             (AnimationAction.create clip)))] |}) s).
Proof.
  intros Hv ->. unfold gltfOnLoad. rewrite Hv. cbn.
  unfold startAction, AnimationMixer.update.
  cbn [AnimationMixer.actions AnimationMixer.root].
  now rewrite alter_snoc.
Qed.
End Actions.

(** ** Retargeting an FBX clip *)
Section RetargetingProperties.
Import JsString Viewer Samples.

(** C1.  The specification: for every FBX clip, each track whose name has a
    dot is matched by its bone name against the bone-mapping table
    (exact key first, then loose inclusion), a matched track is emitted
    under the node's name with its keyframes unchanged, and a track
    whose bone name matches no key is dropped.  The code departs from
    it at two places.  Building the table throws as soon as the model
    lacks one bone of the enumeration: for the model [avatar], which
    has a hips bone and no jaw, the track [hips.quaternion] is not
    emitted, no action is started and the error state is set.  And the
    exact lookup also finds the members an object literal inherits: on
    an empty table the track [constructor.position] is emitted as
    [Object.position]. *)
Theorem retargeting_misses_present_bones :
  (let s := fbxOnLoad boneNames (fbxOf ["hips.quaternion"]) (showing avatar) in
   VRMHumanoid.getRawBoneNode
     {| VRMHumanoid.humanBones := [("hips", hipsNode); ("leftHand", handNode)] |}
     "hips" = Some hipsNode
   /\ retargetPass boneNames avatar (clipOf ["hips.quaternion"])
      = inl "VRM bone is not an Object3D"
   /\ error s = "Error applying animation: VRM bone is not an Object3D"
   /\ activeAction s = None
   /\ runningActions s = [])
  /\ (JsObject.keys ([] : JsObject.t Object3D.t) = []
      /\ retargetTracks [] [track "constructor.position"]
         = [ {| KeyframeTrack.class := QuaternionKeyframeTrack;
                KeyframeTrack.name := "Object.position";
                KeyframeTrack.times := sampleTimes;
                KeyframeTrack.values := sampleValues |} ]).
Proof. vm_compute. repeat split; reflexivity. Qed.

(** With every bone present a clip is retargeted as the specification
    describes. *)
Example retargeting_with_all_bones :
  retargetPass boneNames fullAvatar
    (clipOf ["hips.quaternion"; "mixamorigLeftHand.quaternion";
             "Tail.position"; "root"])
  = inr [ {| KeyframeTrack.class := QuaternionKeyframeTrack;
             KeyframeTrack.name := "J_Bip_C_Hips.quaternion";
             KeyframeTrack.times := sampleTimes;
             KeyframeTrack.values := sampleValues |};
          {| KeyframeTrack.class := QuaternionKeyframeTrack;
             KeyframeTrack.name := "J_Bip_L_Hand.quaternion";
             KeyframeTrack.times := sampleTimes;
             KeyframeTrack.values := sampleValues |} ].
Proof. vm_compute. reflexivity. Qed.

(** C2.  The specification: whenever the retargeting pass of an FBX load
    maps no track onto a bone of the model, the load does not fail and
    the clip [fallback-motion] is played as the active action.  The
    code departs from it on a model that lacks one bone of the
    enumeration.  For [avatar], which has a hips and a left hand bone
    and no jaw, and a file whose only track is [Tail.position], no
    track is mapped: the table of the bones the model has matches none.
    Yet building the table throws before the track pass begins, the
    error state is set and no action is started, the fallback clip
    included.  On [fullAvatar], which has the three bones, the same
    file plays the fallback clip. *)
Theorem fallback_motion_missed_on_incomplete_humanoid :
  (let s := fbxOnLoad boneNames (fbxOf ["Tail.position"]) (showing avatar) in
   currentVrm (showing avatar) = Some avatar
   /\ (exists table,
         buildBoneMapping ["hips"; "leftHand"] (VRM.humanoid avatar)
         = inr table
         /\ retargetTracks table
              (AnimationClip.tracks (clipOf ["Tail.position"])) = [])
   /\ retargetPass boneNames avatar (clipOf ["Tail.position"])
      = inl "VRM bone is not an Object3D"
   /\ error (showing avatar) = ""
   /\ error s = "Error applying animation: VRM bone is not an Object3D"
   /\ activeAction s = None
   /\ (AnimationMixer.actions <$> mixer s) = Some []
   /\ runningActions s = [])
  /\ (let s := fbxOnLoad boneNames (fbxOf ["Tail.position"])
                 (showing fullAvatar) in
      retargetPass boneNames fullAvatar (clipOf ["Tail.position"]) = inr []
      /\ error s = ""
      /\ runningActions s
         = [AnimationAction.play
              (AnimationAction.fadeIn (1 # 2)%Q
                 (AnimationAction.create customClip))]).
Proof.
  split.
  - cbn zeta. split; [reflexivity|].
    split; [eexists; split; vm_compute; reflexivity|].
    vm_compute. repeat split; reflexivity.
  - vm_compute. repeat split; reflexivity.
Qed.

(** X22.  When the table is built and the track pass of an FBX load
    completes without a single mapped track, the callback sets no
    error: it plays the clip [fallback-motion], two seconds long, whose
    one track moves the position from the origin to a tenth of a unit
    up at one second and back at two, as a repeating action that fades
    in over half a second and becomes the active one. *)
Theorem fallback_motion_once_table_is_built
  (names : list string) (fbx : FBX.t) (s : State) (vrm : VRM.t)
  (first : AnimationClip.t) (rest : list AnimationClip.t) :
  currentVrm s = Some vrm ->
  FBX.animations fbx = first :: rest ->
  retargetPass names vrm first = inr [] ->
  let s' := fbxOnLoad names fbx s in
  error s' = error s
  /\ exists m a action track,
       mixer s' = Some m
       /\ activeAction s' = Some a
       /\ AnimationMixer.actions m !! a = Some action
       /\ AnimationAction.clip action
          = {| AnimationClip.name := "fallback-motion";
               AnimationClip.duration := 2%Q;
               AnimationClip.tracks := [track] |}
       /\ KeyframeTrack.class track = VectorKeyframeTrack
       /\ KeyframeTrack.name track = ".position"
       /\ Forall2 Qeq (KeyframeTrack.times track) [0%Q; 1%Q; 2%Q]
       /\ Forall2 Qeq (KeyframeTrack.values track)
            [0%Q; 0%Q; 0%Q; 0%Q; (1 # 10)%Q; 0%Q; 0%Q; 0%Q; 0%Q]
       /\ AnimationAction.clampWhenFinished action = false
       /\ AnimationAction.loop action = LoopRepeat
       /\ AnimationAction.repetitions action = Infinity
       /\ AnimationAction.timeScale action = 1%Q
       /\ AnimationAction.fading action = Some (FadeIn (1 # 2)%Q)
       /\ AnimationAction.playing action = true
       /\ AnimationAction.running action = true.
Proof.
  intros Hv Ha Hp s'. subst s'.
  rewrite (fbxOnLoad_plays _ _ _ _ _ _ _ Hv Ha Hp). cbn zeta.
  split; [reflexivity|].
  eexists _, _, _, positionTrack.
  split; [reflexivity|]. split; [reflexivity|].
  split; [apply lookup_snoc|].
  split; [reflexivity|]. split; [reflexivity|]. split; [reflexivity|].
  split; [repeat constructor|].
  split; [repeat constructor|].
  repeat split.
Qed.

Lemma fallback_motion_once_table_is_built_witness :
  currentVrm (showing fullAvatar) = Some fullAvatar
  /\ retargetPass boneNames fullAvatar (clipOf ["Tail.position"; "root"])
     = inr []
  /\ exists m a action,
       mixer (fbxOnLoad boneNames (fbxOf ["Tail.position"; "root"])
                (showing fullAvatar)) = Some m
       /\ activeAction
            (fbxOnLoad boneNames (fbxOf ["Tail.position"; "root"])
               (showing fullAvatar)) = Some a
       /\ AnimationMixer.actions m !! a = Some action
       /\ AnimationAction.clip action = customClip
       /\ AnimationAction.playing action = true.
Proof.
  split; [reflexivity|]. split; [reflexivity|].
  destruct (fallback_motion_once_table_is_built boneNames
              (fbxOf ["Tail.position"; "root"]) (showing fullAvatar)
              fullAvatar (clipOf ["Tail.position"; "root"]) [])
    as (_ & m & a & action & track & Hm & Ha & Hi & Hc & _);
    [reflexivity ..|].
  exists m, a, action. split; [exact Hm|]. split; [exact Ha|].
  split; [exact Hi|].
  vm_compute in Hm. vm_compute in Ha.
  injection Hm as <-. injection Ha as <-.
  vm_compute in Hi. injection Hi as <-. split; reflexivity.
Defined.

(** A model without humanoid has an empty table: whatever the tracks are
    named, the fallback clip is played. *)
Example fallback_motion_without_humanoid :
  retargetPass boneNames statue (clipOf ["hips.quaternion"]) = inr []
  /\ runningActions
       (fbxOnLoad boneNames (fbxOf ["hips.quaternion"]) (showing statue))
     = [AnimationAction.play
          (AnimationAction.fadeIn (1 # 2)%Q
             (AnimationAction.create customClip))].
Proof. vm_compute. split; reflexivity. Qed.

(** C3.  While no model is loaded, [playAnimation] changes nothing,
    and the success callbacks of both animation loaders change nothing
    either. *)
Theorem no_animation_without_model
  (names : list string) (url : string) (fbx : FBX.t) (gltf : GLTF.t)
  (s : State) :
  currentVrm s = None ->
  playAnimation url s = s
  /\ fbxOnLoad names fbx s = s
  /\ gltfOnLoad gltf s = s.
Proof.
  intros H. unfold playAnimation, fbxOnLoad, gltfOnLoad.
  now rewrite H.
Qed.

Lemma no_animation_without_model_witness :
  currentVrm initialState = None
  /\ playAnimation "/animations/walk.fbx" initialState = initialState
  /\ fbxOnLoad boneNames (fbxOf ["hips.quaternion"]) initialState
     = initialState
  /\ gltfOnLoad (animationFile ["hips.quaternion"]) initialState
     = initialState.
Proof.
  split; [reflexivity|].
  apply (no_animation_without_model boneNames "/animations/walk.fbx"
           (fbxOf ["hips.quaternion"]) (animationFile ["hips.quaternion"])
           initialState).
  reflexivity.
Defined.
End RetargetingProperties.

(** ** One model, one action *)
Section SingleActive.
Import JsString Viewer.
Local Open Scope list_scope.

Lemma filter_no_index {A} (P : A -> Prop) `{!forall x, Decision (P x)}
  (l : list A) :
  (forall i x, l !! i = Some x -> ~ P x) -> filter P l = [].
Proof.
  induction l as [|y l IH]; intros Hall; [reflexivity|].
  rewrite filter_cons. destruct (decide (P y)) as [Hy|Hy].
  - now destruct (Hall 0 y eq_refl).
  - apply IH. intros i x Hi. exact (Hall (S i) x Hi).
Qed.

Lemma filter_one_index {A} (P : A -> Prop) `{!forall x, Decision (P x)}
  (l : list A) (a : nat) :
  (forall i x, l !! i = Some x -> P x -> i = a) ->
  List.length (filter P l) <= 1.
Proof.
  revert a. induction l as [|y l IH]; intros a Hall; [cbn; lia|].
  rewrite filter_cons. destruct (decide (P y)) as [Hy|Hy].
  - pose proof (Hall 0 y eq_refl Hy) as <-.
    rewrite filter_no_index; [cbn; lia|].
    intros i x Hi Px. now specialize (Hall (S i) x Hi Px).
  - destruct a as [|a].
    + rewrite filter_no_index; [cbn; lia|].
      intros i x Hi Px. now specialize (Hall (S i) x Hi Px).
    + apply (IH a). intros i x Hi Px.
      specialize (Hall (S i) x Hi Px). lia.
Qed.

Lemma modelsInScene_nil_or_one s :
  sceneTracksModel s -> List.length (modelsInScene s) <= 1.
Proof. intros [->|(o & _ & ->)]; cbn; lia. Qed.

Lemma runningActions_at_most_one s :
  mixerTracksAction s -> List.length (runningActions s) <= 1.
Proof.
  intros H. unfold runningActions.
  destruct (mixer s) as [m|] eqn:Hm; [|cbn; lia].
  destruct (activeAction s) as [a|] eqn:Ha.
  - apply (filter_one_index _ _ a). intros i x Hi Hx.
    specialize (H m i x Hm Hi Hx). congruence.
  - apply (filter_one_index _ _ 0). intros i x Hi Hx.
    specialize (H m i x Hm Hi Hx). congruence.
Qed.

Lemma runningActions_none s :
  mixerTracksAction s -> activeAction s = None -> runningActions s = [].
Proof.
  intros H Ha. unfold runningActions.
  destruct (mixer s) as [m|] eqn:Hm; [|reflexivity].
  apply filter_no_index. intros i x Hi Px.
  specialize (H m i x Hm Hi Px). congruence.
Qed.

Lemma sceneRemove_models o children :
  filter (fun c => c ∉ room) (sceneRemove o children)
  = sceneRemove o (filter (fun c => c ∉ room) children).
Proof.
  unfold sceneRemove. induction children as [|c cs IH]; [reflexivity|].
  rewrite !filter_cons.
  destruct (decide (c ≠ o)), (decide (c ∉ room));
    rewrite ?filter_cons; repeat case_decide; try tauto; now f_equal.
Qed.

(** The state fields the invariant reads. *)
Lemma wellKept_ext s s' :
  scene s' = scene s ->
  VRM.scene <$> currentVrm s' = VRM.scene <$> currentVrm s ->
  mixer s' = mixer s ->
  activeAction s' = activeAction s ->
  wellKept s -> wellKept s'.
Proof.
  intros Hs Hv Hm Ha (H1 & H2 & H3). repeat split.
  - unfold sceneTracksModel, modelsInScene in *. now rewrite Hs, Hv.
  - unfold mixerTracksAction in *. now rewrite Hm, Ha.
  - unfold actionNeedsModel in *. rewrite Ha. intros Hne Hc.
    apply (H3 Hne). destruct (currentVrm s); [|reflexivity].
    rewrite Hc in Hv. discriminate.
Qed.

Lemma resetExpressions_frame s :
  scene (resetExpressions s) = scene s
  /\ VRM.scene <$> currentVrm (resetExpressions s)
     = VRM.scene <$> currentVrm s
  /\ mixer (resetExpressions s) = mixer s
  /\ activeAction (resetExpressions s) = activeAction s
  /\ loads (resetExpressions s) = loads s
  /\ error (resetExpressions s) = error s
  /\ isLoading (resetExpressions s) = isLoading s.
Proof.
  unfold resetExpressions.
  destruct (currentVrm s) as [v|] eqn:Hv; [|now rewrite Hv].
  destruct (VRM.expressionManager v); cbn; now rewrite ?Hv.
Qed.

Lemma setExpression_frame expression weight s :
  scene (setExpression expression weight s) = scene s
  /\ VRM.scene <$> currentVrm (setExpression expression weight s)
     = VRM.scene <$> currentVrm s
  /\ mixer (setExpression expression weight s) = mixer s
  /\ activeAction (setExpression expression weight s) = activeAction s.
Proof.
  unfold setExpression, resetExpressions.
  destruct (currentVrm s) as [v|] eqn:Hv; [|now rewrite Hv].
  destruct (VRM.expressionManager v); cbn; now rewrite ?Hv.
Qed.

(** What [loadVRM] leaves behind.  The call to [resetExpressions]
    inside it comes after [currentVrm] was set to [null], so its guard
    returns at once: the expression state is the one before the
    call. *)
Lemma loadVRM_result url s :
  truthy url = true ->
  loadVRM url s =
    {| scene := match currentVrm s with
                | Some vrm => sceneRemove (VRM.scene vrm) (scene s)
                | None => scene s
                end;
       currentVrm := None; mixer := None; activeAction := None;
       isLoading := true; error := "";
       activeExpression := activeExpression s;
       loads := loads s ++ [LoadModel url] |}.
Proof.
  intros Hu. unfold loadVRM. rewrite Hu.
  destruct s as [sc [vrm|] mx act il er ae ld]; reflexivity.
Qed.

Lemma clearActiveAction_kept s : wellKept s -> wellKept (clearActiveAction s).
Proof.
  intros (H1 & H2 & H3). unfold clearActiveAction.
  destruct (activeAction s) as [a|] eqn:Ha; [|now repeat split].
  repeat split; [exact H1| |intros H; now cbn in H].
  intros m i action Hm Hi Hr. cbn in Hm |- *. exfalso.
  destruct (mixer s) as [m0|] eqn:Hm0; [|discriminate].
  cbn in Hm. injection Hm as <-. cbn in Hi.
  destruct (decide (i = a)) as [->|Hne].
  - rewrite list_lookup_alter_eq in Hi.
    destruct (AnimationMixer.actions m0 !! a); [|discriminate].
    cbn in Hi. injection Hi as <-.
    unfold AnimationAction.running in Hr. cbn in Hr.
    now rewrite andb_false_r in Hr.
  - rewrite list_lookup_alter_ne in Hi by congruence.
    specialize (H2 m0 i action Hm0 Hi Hr). congruence.
Qed.

Lemma clearActiveAction_clears s :
  activeAction (clearActiveAction s) = None.
Proof.
  unfold clearActiveAction. now destruct (activeAction s) eqn:E.
Qed.

Lemma playAnimation_kept url s : wellKept s -> wellKept (playAnimation url s).
Proof.
  intros H. unfold playAnimation.
  destruct (currentVrm s); [|exact H].
  destruct (negb (truthy url)); [exact H|].
  destruct (endsWith _ _);
    now apply (wellKept_ext (clearActiveAction s)), clearActiveAction_kept.
Qed.

Lemma loadVRM_kept url s : wellKept s -> wellKept (loadVRM url s).
Proof.
  intros (H1 & H2 & H3). unfold loadVRM.
  destruct (negb (truthy url)); [now repeat split|].
  match goal with |- wellKept (load _ (resetExpressions ?x)) =>
    set (s1 := x) end.
  assert (Hk : wellKept s1).
  { subst s1. repeat split.
    - left. unfold sceneTracksModel, modelsInScene in *. cbn.
      destruct (currentVrm s) as [v|] eqn:Hv; cbn.
      + change (filter (fun c => c ≠ VRM.scene v) (scene s))
          with (sceneRemove (VRM.scene v) (scene s)).
        rewrite sceneRemove_models.
        destruct H1 as [->|(o & [= <-] & ->)]; [reflexivity|].
        unfold sceneRemove. rewrite filter_cons.
        destruct (decide (VRM.scene v ≠ VRM.scene v)); [congruence|].
        reflexivity.
      + destruct H1 as [H1|(o & Ho & _)]; [exact H1|discriminate].
    - intros m i action Hm. destruct (currentVrm s); discriminate.
    - intros Hne. exfalso. apply Hne. now destruct (currentVrm s). }
  destruct (resetExpressions_frame s1) as (E1 & E2 & E3 & E4 & _).
  now apply (wellKept_ext s1).
Qed.

Lemma vrmOnLoad_kept gltf s :
  currentVrm s = None -> wellKept s -> wellKept (vrmOnLoad gltf s).
Proof.
  intros Hnone (H1 & H2 & H3). unfold vrmOnLoad.
  destruct (GLTF.userData_vrm gltf) as [vrm|]; [|now repeat split].
  repeat split; [|exact H2|intros _; discriminate].
  unfold sceneTracksModel, modelsInScene in *. cbn.
  rewrite Hnone in H1. destruct H1 as [H1|(o & Ho & _)]; [|discriminate].
  unfold sceneAdd. rewrite filter_app, sceneRemove_models, H1.
  change (sceneRemove (VRM.scene vrm) []) with (@nil Object3D.t).
  rewrite app_nil_l, filter_cons, filter_nil.
  destruct (decide (VRM.scene vrm ∉ room)); [right; eauto|now left].
Qed.

Lemma ensureMixer_actions vrm s i action :
  AnimationMixer.actions (ensureMixer vrm s) !! i = Some action ->
  exists m, mixer s = Some m /\ AnimationMixer.actions m !! i = Some action.
Proof.
  unfold ensureMixer. destruct (mixer s) as [m|]; [eauto|].
  cbn. discriminate.
Qed.

(** An action started in an empty slot is the only one running. *)
Lemma started_alone s vrm action0 :
  currentVrm s = Some vrm ->
  activeAction s = None ->
  wellKept s ->
  wellKept
    (set_activeAction
       (Some (List.length (AnimationMixer.actions (ensureMixer vrm s))))
       (set_mixer
          (Some {| AnimationMixer.root :=
                     AnimationMixer.root (ensureMixer vrm s);
                   AnimationMixer.actions :=
                     AnimationMixer.actions (ensureMixer vrm s)
                     ++ [action0] |}) s)).
Proof.
  intros Hv Ha (H1 & H2 & H3). repeat split; [exact H1| |].
  - intros m i action [= <-] Hi Hr. cbn in Hi |- *.
    apply lookup_app_Some in Hi as [Hi|[Hlen Hi]].
    + apply ensureMixer_actions in Hi as (m0 & Hm0 & Hi).
      specialize (H2 m0 i action Hm0 Hi Hr). congruence.
    + f_equal. apply list_lookup_singleton_Some in Hi as [Hi _]. lia.
  - intros _. cbn. congruence.
Qed.

Lemma ensured_kept vrm s :
  wellKept s -> wellKept (set_mixer (Some (ensureMixer vrm s)) s).
Proof.
  intros (H1 & H2 & H3). repeat split; [exact H1| |exact H3].
  intros m i action [= <-] Hi Hr. cbn.
  apply ensureMixer_actions in Hi as (m0 & Hm0 & Hi). eauto.
Qed.

Lemma fbxOnLoad_kept names fbx s :
  activeAction s = None -> wellKept s -> wellKept (fbxOnLoad names fbx s).
Proof.
  intros Ha H.
  destruct (currentVrm s) as [vrm|] eqn:Hv;
    [|unfold fbxOnLoad; now rewrite Hv].
  destruct (FBX.animations fbx) as [|first rest] eqn:Hf.
  { unfold fbxOnLoad. rewrite Hv, Hf.
    now apply (wellKept_ext (set_mixer (Some (ensureMixer vrm s)) s)),
      ensured_kept. }
  destruct (retargetPass names vrm first) as [msg|tracks] eqn:Hp.
  { unfold fbxOnLoad. rewrite Hv, Hf, Hp.
    now apply (wellKept_ext (set_mixer (Some (ensureMixer vrm s)) s)),
      ensured_kept. }
  rewrite (fbxOnLoad_plays _ _ _ _ _ _ _ Hv Hf Hp). cbn zeta.
  now apply started_alone.
Qed.

Lemma gltfOnLoad_kept gltf s :
  activeAction s = None -> wellKept s -> wellKept (gltfOnLoad gltf s).
Proof.
  intros Ha H. destruct gltf as [anims vrmData].
  destruct (currentVrm s) as [vrm|] eqn:Hv;
    [|unfold gltfOnLoad; now rewrite Hv].
  destruct anims as [|clip rest].
  { unfold gltfOnLoad. rewrite Hv. cbn. now apply ensured_kept. }
  rewrite (gltfOnLoad_plays _ _ _ vrm clip rest Hv eq_refl). cbn zeta.
  now apply started_alone.
Qed.

(** Every step keeps the invariant, provided a completion arrives
    alone. *)
Lemma step_kept names e s :
  arrivesAlone e s -> wellKept s -> wellKept (step names e s).
Proof.
  destruct e as [url|gltf|err|url|fbx|gltf|err| |expression weight| ];
    cbn [step arrivesAlone]; intros Halone H.
  - now apply loadVRM_kept.
  - now apply vrmOnLoad_kept.
  - now apply (wellKept_ext s).
  - now apply playAnimation_kept.
  - now apply fbxOnLoad_kept.
  - now apply gltfOnLoad_kept.
  - now apply (wellKept_ext s).
  - now apply clearActiveAction_kept.
  - destruct (setExpression_frame expression weight s) as (?&?&?&?).
    now apply (wellKept_ext s).
  - destruct (resetExpressions_frame s) as (?&?&?&?&_).
    now apply (wellKept_ext s).
Qed.

Lemma run_kept names es :
  forall s, serial names es s -> wellKept s -> wellKept (run names es s).
Proof.
  induction es as [|e es IH]; intros s Hs H; [exact H|].
  destruct Hs as [Ha Hs]. cbn. apply IH; [exact Hs|].
  now apply step_kept.
Qed.

(** An action is active only while a model is loaded, in every run,
    however calls and completions interleave. *)
Lemma step_needs_model names e s :
  actionNeedsModel s -> actionNeedsModel (step names e s).
Proof.
  unfold actionNeedsModel.
  destruct e as [url|gltf|err|url|fbx|gltf|err| |expression weight| ];
    cbn [step]; intros H.
  - destruct (truthy url) eqn:Hu.
    + rewrite (loadVRM_result url s Hu). cbn. congruence.
    + unfold loadVRM. now rewrite Hu.
  - unfold vrmOnLoad. destruct (GLTF.userData_vrm gltf); cbn;
      [discriminate|exact H].
  - exact H.
  - unfold playAnimation. destruct (currentVrm s) eqn:Hv; [|now rewrite Hv].
    destruct (negb (truthy url)); [now rewrite Hv|].
    destruct (endsWith _ _); cbn; now rewrite clearActiveAction_clears.
  - destruct (currentVrm s) as [vrm|] eqn:Hv;
      [|unfold fbxOnLoad; now rewrite Hv, Hv].
    intros _. unfold fbxOnLoad. rewrite Hv.
    destruct (FBX.animations fbx); [cbn; congruence|].
    destruct (retargetPass _ _ _); cbn; congruence.
  - destruct (currentVrm s) as [vrm|] eqn:Hv;
      [|unfold gltfOnLoad; now rewrite Hv, Hv].
    intros _. unfold gltfOnLoad. rewrite Hv.
    destruct (GLTF.animations gltf); cbn; congruence.
  - exact H.
  - unfold stopAnimation. now rewrite clearActiveAction_clears.
  - destruct (setExpression_frame expression weight s) as (_ & Hc & _ & Ha).
    rewrite Ha. intros Hne Hnone. apply (H Hne).
    rewrite Hnone in Hc. now destruct (currentVrm s).
  - destruct (resetExpressions_frame s) as (_ & Hc & _ & Ha & _).
    rewrite Ha. intros Hne Hnone. apply (H Hne).
    rewrite Hnone in Hc. now destruct (currentVrm s).
Qed.

Lemma run_needs_model names es :
  forall s, actionNeedsModel s -> actionNeedsModel (run names es s).
Proof.
  induction es as [|e es IH]; intros s H; [exact H|].
  cbn. apply IH. now apply step_needs_model.
Qed.

Lemma initialState_kept : wellKept initialState.
Proof.
  repeat split.
  - left. vm_compute. reflexivity.
  - intros m i action H. discriminate.
  - intros H. now cbn in H.
Qed.
End SingleActive.

Section SingleActiveProperties.
Import JsString Viewer Samples.
Local Open Scope list_scope.

(** [loadVRM] takes the current model out of the scene and forgets it,
    together with the mixer and the active action, and only then hands
    the request to the loader. *)
Lemma loadVRM_replaces url s :
  truthy url = true ->
  currentVrm (loadVRM url s) = None
  /\ mixer (loadVRM url s) = None
  /\ activeAction (loadVRM url s) = None
  /\ (forall vrm, currentVrm s = Some vrm ->
                  VRM.scene vrm ∉ scene (loadVRM url s))
  /\ loads (loadVRM url s) = loads s ++ [LoadModel url].
Proof.
  intros Hu. rewrite (loadVRM_result url s Hu). cbn.
  repeat split. intros vrm ->. unfold sceneRemove.
  rewrite list_elem_of_filter. tauto.
Qed.

(** [playAnimation] fades the active action out and forgets it, and
    only then hands the request to a loader. *)
Lemma playAnimation_replaces url s :
  truthy url = true ->
  currentVrm s <> None ->
  activeAction (playAnimation url s) = None
  /\ (forall m a action,
        mixer s = Some m -> activeAction s = Some a ->
        AnimationMixer.actions m !! a = Some action ->
        exists m', mixer (playAnimation url s) = Some m'
                   /\ AnimationMixer.actions m' !! a
                      = Some (AnimationAction.fadeOut (1 # 2)%Q action))
  /\ exists r, loads (playAnimation url s) = loads s ++ [r].
Proof.
  intros Hu Hv. unfold playAnimation.
  destruct (currentVrm s); [|congruence]. rewrite Hu. cbn [negb].
  assert (Hl : loads (clearActiveAction s) = loads s).
  { unfold clearActiveAction. now destruct (activeAction s). }
  repeat split.
  - destruct (endsWith _ _); cbn; apply clearActiveAction_clears.
  - intros m a action Hm Ha Hi.
    exists (AnimationMixer.update a (AnimationAction.fadeOut (1 # 2)%Q) m).
    split.
    + destruct (endsWith _ _); cbn; unfold clearActiveAction;
        now rewrite Ha, Hm.
    + cbn. now rewrite list_lookup_alter_eq, Hi.
  - destruct (endsWith _ _); eexists; cbn; now rewrite Hl.
Qed.

(** The simple viewer replaces its model the same way. *)
Lemma page_loadVRM_replaces url s :
  truthy url = true ->
  Page.currentVrm (Page.loadVRM url s) = None
  /\ (forall vrm, Page.currentVrm s = Some vrm ->
                  VRM.scene vrm ∉ Page.scene (Page.loadVRM url s))
  /\ Page.loads (Page.loadVRM url s) = Page.loads s ++ [LoadModel url].
Proof.
  intros Hu. unfold Page.loadVRM. rewrite Hu. cbn.
  repeat split. intros vrm ->. unfold sceneRemove.
  rewrite list_elem_of_filter. tauto.
Qed.

(** C4, as stated, fails when loads overlap: two models
    requested before either completes both end up in the scene, and
    two animations requested before either completes both keep
    running. *)
Lemma overlapping_loads_leave_two_active :
  ~ (List.length
       (modelsInScene
          (run boneNames
             [CallLoadVRM "/models/a.vrm"; CallLoadVRM "/models/b.vrm";
              ModelLoaded (modelFile avatar);
              ModelLoaded (modelFile fullAvatar)]
             initialState)) <= 1)
  /\ ~ (List.length
          (runningActions
             (run boneNames
                [CallPlayAnimation "/animations/wave.glb";
                 CallPlayAnimation "/animations/walk.glb";
                 GltfLoaded (animationFile ["hips.quaternion"]);
                 GltfLoaded (animationFile ["leftHand.quaternion"])]
                (showing avatar))) <= 1).
Proof. split; vm_compute; lia. Qed.

(** C4, amended.  In every run in which each completion arrives alone,
    the scene holds at most one model and the mixer at most one running
    action.  On any state, [loadVRM] removes the current model from the
    scene and forgets it before it requests the load, and
    [playAnimation] fades the active action out and forgets it before
    it requests the load. *)
Theorem single_active_in_serial_runs
  (names : list string) (es : list Event) (url : string) (s0 : State) :
  serial names es initialState ->
  truthy url = true ->
  currentVrm s0 <> None ->
  (let s := run names es initialState in
   List.length (modelsInScene s) <= 1
   /\ List.length (runningActions s) <= 1
   /\ modelsInScene (loadVRM url s) = []
   /\ runningActions (playAnimation url s) = [])
  /\ (currentVrm (loadVRM url s0) = None
      /\ (forall vrm, currentVrm s0 = Some vrm ->
                      VRM.scene vrm ∉ scene (loadVRM url s0))
      /\ loads (loadVRM url s0) = loads s0 ++ [LoadModel url])
  /\ (activeAction (playAnimation url s0) = None
      /\ (forall m a action,
            mixer s0 = Some m -> activeAction s0 = Some a ->
            AnimationMixer.actions m !! a = Some action ->
            exists m', mixer (playAnimation url s0) = Some m'
                       /\ AnimationMixer.actions m' !! a
                          = Some (AnimationAction.fadeOut (1 # 2)%Q action))
      /\ exists r, loads (playAnimation url s0) = loads s0 ++ [r]).
Proof.
  intros Hs Hu Hv.
  pose proof (run_kept names es initialState Hs initialState_kept) as Hk.
  split; [|split].
  - cbn zeta. set (s := run names es initialState) in *.
    destruct Hk as (H1 & H2 & H3).
    split; [now apply modelsInScene_nil_or_one|].
    split; [now apply runningActions_at_most_one|].
    split.
    + destruct (loadVRM_kept url s (conj H1 (conj H2 H3))) as ([E|E] & _).
      * exact E.
      * destruct E as (o & Ho & _).
        destruct (loadVRM_replaces url s Hu) as (Hc & _).
        rewrite Hc in Ho. discriminate.
    + destruct (playAnimation_kept url s (conj H1 (conj H2 H3)))
        as (_ & K2 & _).
      apply runningActions_none; [exact K2|].
      unfold playAnimation. destruct (currentVrm s) eqn:Hc.
      * rewrite Hu. cbn [negb].
        destruct (endsWith _ _); cbn; apply clearActiveAction_clears.
      * destruct (activeAction s) eqn:Ha; [|reflexivity].
        exfalso. apply H3; congruence.
  - destruct (loadVRM_replaces url s0 Hu) as (A & _ & _ & B & C).
    now repeat split.
  - exact (playAnimation_replaces url s0 Hu Hv).
Qed.

Lemma single_active_in_serial_runs_witness :
  let es := [CallLoadVRM "/models/a.vrm"; ModelLoaded (modelFile avatar);
             CallPlayAnimation "/animations/wave.glb";
             GltfLoaded (animationFile ["hips.quaternion"]);
             CallPlayAnimation "/animations/walk.glb";
             GltfLoaded (animationFile ["leftHand.quaternion"]);
             CallLoadVRM "/models/b.vrm";
             ModelLoaded (modelFile fullAvatar)] in
  let s := run boneNames es initialState in
  serial boneNames es initialState
  /\ truthy "/models/c.vrm" = true
  /\ currentVrm (showing avatar) <> None
  /\ List.length (modelsInScene s) <= 1
  /\ List.length (runningActions s) <= 1.
Proof.
  intros es s.
  assert (Hs : serial boneNames es initialState)
    by (vm_compute; repeat split).
  assert (Hv : currentVrm (showing avatar) <> None)
    by (vm_compute; discriminate).
  split; [exact Hs|]. split; [reflexivity|]. split; [exact Hv|].
  destruct (single_active_in_serial_runs boneNames es "/models/c.vrm"
              (showing avatar) Hs eq_refl Hv) as ((H1 & H2 & _) & _).
  split; [exact H1|exact H2].
Defined.
End SingleActiveProperties.

(** ** Load failures *)
Section Failures.
Import JsString Viewer Samples.

(** C5.  A failed load reaches the error callback of its loader, which
    writes one string to the error state: [Failed to load VRM model: ]
    or [Failed to load animation: ] followed by the message of the
    error, for an [Error] and for any other object that has a message,
    and by [Unknown error] for every other value.  A file that loads
    without VRM data is reported as [Failed to load VRM model: No VRM
    data found].  None of these paths hands a new request to a loader.
    The simple viewer reports model failures alike. *)
Theorem load_failures_become_messages
  (message : string) (e : LoadError) (s : State) (p : Page.State)
  (anims : list AnimationClip.t) :
  (error (vrmOnError (ErrorInstance message) s)
   = "Failed to load VRM model: " ++ message
   /\ error (vrmOnError (ObjectWithMessage message) s)
      = "Failed to load VRM model: " ++ message
   /\ error (vrmOnError OtherValue s)
      = "Failed to load VRM model: Unknown error"
   /\ isLoading (vrmOnError e s) = false
   /\ loads (vrmOnError e s) = loads s)
  /\ (error (animationOnError (ErrorInstance message) s)
      = "Failed to load animation: " ++ message
      /\ error (animationOnError (ObjectWithMessage message) s)
         = "Failed to load animation: " ++ message
      /\ error (animationOnError OtherValue s)
         = "Failed to load animation: Unknown error"
      /\ loads (animationOnError e s) = loads s)
  /\ (let s' := vrmOnLoad {| GLTF.animations := anims;
                             GLTF.userData_vrm := None |} s in
      error s' = "Failed to load VRM model: No VRM data found"
      /\ isLoading s' = false
      /\ loads s' = loads s)
  /\ (Page.error (Page.vrmOnError (ErrorInstance message) p)
      = "Failed to load VRM model: " ++ message
      /\ Page.error (Page.vrmOnError (ObjectWithMessage message) p)
         = "Failed to load VRM model: " ++ message
      /\ Page.error (Page.vrmOnError OtherValue p)
         = "Failed to load VRM model: Unknown error"
      /\ Page.isLoading (Page.vrmOnError e p) = false
      /\ Page.loads (Page.vrmOnError e p) = Page.loads p)
  /\ (let p' := Page.vrmOnLoad {| GLTF.animations := anims;
                                  GLTF.userData_vrm := None |} p in
      Page.error p' = "Failed to load VRM model: No VRM data found"
      /\ Page.isLoading p' = false
      /\ Page.loads p' = Page.loads p).
Proof. repeat split. Qed.

Example network_failure_message :
  error (vrmOnError (ErrorInstance "fetch for /models/x.vrm responded with 404")
           (loadVRM "/models/x.vrm" (showing avatar)))
  = "Failed to load VRM model: fetch for /models/x.vrm responded with 404"
  /\ error (animationOnError OtherValue (showing avatar))
     = "Failed to load animation: Unknown error".
Proof. split; reflexivity. Qed.

(** After a failed load, or a file without VRM data, the viewer has no
    model: the one shown before the call is gone from the scene. *)
Lemma failed_load_leaves_no_model url e anims s :
  truthy url = true ->
  currentVrm (vrmOnError e (loadVRM url s)) = None
  /\ currentVrm (vrmOnLoad {| GLTF.animations := anims;
                              GLTF.userData_vrm := None |} (loadVRM url s))
     = None
  /\ (forall vrm, currentVrm s = Some vrm ->
        VRM.scene vrm ∉ scene (vrmOnError e (loadVRM url s))).
Proof.
  intros Hu. destruct (loadVRM_replaces url s Hu) as (Hc & _ & _ & Hs & _).
  repeat split; cbn; auto.
Qed.
End Failures.

(** ** Expressions *)
Section Expressions.
Import JsString Viewer Samples.

(** Membership of a literal name in the list of presets. *)
Ltac preset_member :=
  apply list_elem_of_In; cbn; repeat (first [left; reflexivity | right]).

(** Reading after [setValue]: a defined name reads the clamped weight,
    every other name reads as before. *)
Lemma lookup_setValue (e : string) (w : Q) (m : gmap string Q) (k : string) :
  VRMExpressionManager.setValue e w m !! k
  = if decide (e = k)
    then (fun _ => VRMExpressionManager.saturate w) <$> m !! k
    else m !! k.
Proof.
  unfold VRMExpressionManager.setValue.
  destruct (decide (e = k)) as [->|Hne].
  - destruct (m !! k) eqn:Hk; [|now rewrite Hk].
    now rewrite lookup_insert_eq.
  - destruct (m !! e); [|reflexivity]. now rewrite lookup_insert_ne.
Qed.

(** Setting every preset to 0, as the loop of [resetExpressions]
    does: the presets the model defines read 0, every other name reads
    as before. *)
Lemma reset_lookup (presets : list string) :
  forall (manager : gmap string Q) (expr : string),
    foldl (fun m e => VRMExpressionManager.setValue e 0%Q m) manager presets
      !! expr
    = if decide (expr ∈ presets)
      then (fun _ => 0%Q) <$> manager !! expr
      else manager !! expr.
Proof.
  induction presets as [|p ps IH]; intros manager expr; cbn [foldl].
  - case_decide as H; [|reflexivity]. now apply elem_of_nil in H.
  - rewrite IH, lookup_setValue.
    destruct (decide (expr ∈ p :: ps)) as [Hcons|Hcons];
      destruct (decide (expr ∈ ps)) as [Hin|Hnin];
      destruct (decide (p = expr)) as [Heq|Hne];
      try reflexivity.
    + now destruct (manager !! expr).
    + apply elem_of_cons in Hcons as [?|?]; [congruence|contradiction].
    + exfalso. apply Hcons, elem_of_cons. now right.
    + exfalso. apply Hcons, elem_of_cons. now right.
    + exfalso. apply Hcons, elem_of_cons. now left.
Qed.

Lemma resetExpressions_result s vrm manager :
  currentVrm s = Some vrm ->
  VRM.expressionManager vrm = Some manager ->
  resetExpressions s =
    setActiveExpression ""
      (set_currentVrm
         (Some (VRM.setExpressionManager
                  (foldl (fun m e => VRMExpressionManager.setValue e 0%Q m)
                     manager RENDER_CONFIG_expressions) vrm)) s).
Proof. intros Hv Hm. unfold resetExpressions. now rewrite Hv, Hm. Qed.

Lemma resetExpressions_guard s :
  currentVrm s = None
  \/ (exists vrm, currentVrm s = Some vrm
                  /\ VRM.expressionManager vrm = None) ->
  resetExpressions s = s.
Proof.
  unfold resetExpressions. intros [->|(vrm & -> & ->)]; reflexivity.
Qed.

Lemma setExpression_result expression weight s vrm manager :
  currentVrm s = Some vrm ->
  VRM.expressionManager vrm = Some manager ->
  setExpression expression weight s =
    setActiveExpression expression
      (set_currentVrm
         (Some (VRM.setExpressionManager
                  (VRMExpressionManager.setValue expression
                     (default RENDER_CONFIG_expressionWeight weight)
                     (foldl
                        (fun m e => VRMExpressionManager.setValue e 0%Q m)
                        manager RENDER_CONFIG_expressions)) vrm)) s).
Proof.
  intros Hv Hm. unfold setExpression.
  rewrite Hv, Hm, (resetExpressions_result s vrm manager Hv Hm).
  cbn [currentVrm setActiveExpression set_currentVrm
       VRM.expressionManager VRM.setExpressionManager].
  unfold setActiveExpression, set_currentVrm, VRM.setExpressionManager.
  cbn [scene currentVrm mixer activeAction isLoading error activeExpression
       loads VRM.scene VRM.humanoid VRM.expressionManager].
  reflexivity.
Qed.

(** The weights after the reset of [setExpression] and its one
    [setValue]: the requested name reads the clamped weight if the
    model defines it, every other preset the model defines reads 0, and
    every other name reads as before. *)
Lemma setExpression_lookup (expression : string) (weight : option Q)
  (manager : gmap string Q) (k : string) :
  VRMExpressionManager.setValue expression
    (default RENDER_CONFIG_expressionWeight weight)
    (foldl (fun m e => VRMExpressionManager.setValue e 0%Q m)
       manager RENDER_CONFIG_expressions) !! k
  = if decide (expression = k)
    then (fun _ => VRMExpressionManager.saturate (default 1%Q weight))
           <$> manager !! k
    else if decide (k ∈ RENDER_CONFIG_expressions)
         then (fun _ => 0%Q) <$> manager !! k
         else manager !! k.
Proof.
  rewrite lookup_setValue, reset_lookup.
  destruct (decide (expression = k)); [|reflexivity].
  destruct (decide (k ∈ RENDER_CONFIG_expressions)); [|reflexivity].
  now destruct (manager !! k).
Qed.

(** A weight between 0 and 1 passes the clamp unchanged, and what
    leaves the clamp lies between 0 and 1. *)
Lemma saturate_in_range (w : Q) :
  (0 <= w)%Q -> (w <= 1)%Q -> (VRMExpressionManager.saturate w == w)%Q.
Proof.
  intros H0 H1. unfold VRMExpressionManager.saturate.
  destruct (Qle_bool 1 w) eqn:E1.
  - apply Qle_bool_iff in E1. now apply Qle_antisym.
  - destruct (Qle_bool w 0) eqn:E0; [|reflexivity].
    apply Qle_bool_iff in E0. now apply Qle_antisym.
Qed.

Lemma saturate_bounds (w : Q) :
  (0 <= VRMExpressionManager.saturate w)%Q
  /\ (VRMExpressionManager.saturate w <= 1)%Q.
Proof.
  unfold VRMExpressionManager.saturate.
  destruct (Qle_bool 1 w) eqn:E1; [split; discriminate|].
  destruct (Qle_bool w 0) eqn:E0; [split; discriminate|].
  split.
  - apply Qnot_lt_le. intros H. apply Qlt_le_weak in H.
    apply Qle_bool_iff in H. congruence.
  - apply Qnot_lt_le. intros H. apply Qlt_le_weak in H.
    apply Qle_bool_iff in H. congruence.
Qed.

Lemma expressionWeight_value (s : State) (expr : string) :
  expressionWeight s expr = default 0%Q (expressionValue s expr).
Proof.
  unfold expressionWeight, expressionValue.
  destruct (currentVrm s) as [vrm|]; [|reflexivity].
  now destruct (VRM.expressionManager vrm).
Qed.

(** C6, as stated, fails while no model is loaded: after
    an expression was set and a new model was requested,
    [resetExpressions] leaves the active-expression state as it is. *)
Lemma resetExpressions_without_model_keeps_active :
  let s := run boneNames
             [CallLoadVRM "/models/a.vrm"; ModelLoaded (modelFile avatar);
              CallSetExpression "happy" None;
              CallLoadVRM "/models/b.vrm"]
             initialState in
  currentVrm s = None
  /\ activeExpression (resetExpressions s) = "happy"
  /\ ~ (activeExpression (resetExpressions s) = "").
Proof. vm_compute. repeat split. discriminate. Qed.

(** C6, amended.  The presets are the fourteen names below, one button
    each.  When a model with an expression manager is loaded,
    [resetExpressions] sets the weight of every preset the model
    defines to 0 and clears the active-expression state; a preset the
    model does not define stays undefined, and the weight of every
    other expression stays as it was.  Without a model, or without an
    expression manager, [resetExpressions] changes nothing. *)
Theorem resetExpressions_on_loaded_model
  (s s0 : State) (vrm : VRM.t) (manager : gmap string Q) :
  currentVrm s = Some vrm ->
  VRM.expressionManager vrm = Some manager ->
  (currentVrm s0 = None
   \/ exists vrm0, currentVrm s0 = Some vrm0
                   /\ VRM.expressionManager vrm0 = None) ->
  RENDER_CONFIG_expressions
  = [ "neutral"; "happy"; "angry"; "sad"; "relaxed"; "surprised";
      "aa"; "ih"; "ou"; "ee"; "oh"; "blink"; "blinkLeft"; "blinkRight" ]
  /\ List.length RENDER_CONFIG_expressions = 14
  /\ map fst expressionButtons = RENDER_CONFIG_expressions
  /\ (exists vrm' manager',
        currentVrm (resetExpressions s) = Some vrm'
        /\ VRM.expressionManager vrm' = Some manager'
        /\ (forall expr, expr ∈ RENDER_CONFIG_expressions ->
              VRMExpressionManager.getValue expr manager'
              = (fun _ => 0%Q) <$> VRMExpressionManager.getValue expr manager)
        /\ (forall expr, expr ∉ RENDER_CONFIG_expressions ->
              VRMExpressionManager.getValue expr manager'
              = VRMExpressionManager.getValue expr manager))
  /\ activeExpression (resetExpressions s) = ""
  /\ resetExpressions s0 = s0.
Proof.
  intros Hv Hm H0.
  split; [reflexivity|]. split; [reflexivity|]. split; [reflexivity|].
  rewrite (resetExpressions_result s vrm manager Hv Hm).
  split; [|split; [reflexivity|now apply resetExpressions_guard]].
  eexists _, _. split; [reflexivity|]. split; [reflexivity|].
  unfold VRMExpressionManager.getValue.
  split; intros expr Hin; rewrite reset_lookup.
  - now rewrite decide_True.
  - now rewrite decide_False.
Qed.

Lemma resetExpressions_on_loaded_model_witness :
  let s := run boneNames [CallSetExpression "happy" None] (showing avatar) in
  currentVrm initialState = None
  /\ expressionWeight s "happy" = 1%Q
  /\ activeExpression s = "happy"
  /\ expressionWeight (resetExpressions s) "happy" = 0%Q
  /\ expressionValue (resetExpressions s) "angry" = None
  /\ activeExpression (resetExpressions s) = "".
Proof.
  intros s.
  assert (Hv : exists vrm manager,
             currentVrm s = Some vrm
             /\ VRM.expressionManager vrm = Some manager
             /\ VRMExpressionManager.getValue "happy" manager = Some 1%Q
             /\ VRMExpressionManager.getValue "angry" manager = None).
  { eexists _, _. repeat split; reflexivity. }
  destruct Hv as (vrm & manager & Hv & Hm & Hh & Hn).
  destruct (resetExpressions_on_loaded_model s initialState vrm manager
              Hv Hm (or_introl eq_refl))
    as (_ & _ & _ & (vrm' & manager' & Hv' & Hm' & Hw & _) & Ha & _).
  split; [reflexivity|].
  split; [reflexivity|]. split; [reflexivity|].
  unfold expressionWeight, expressionValue. rewrite Hv', Hm'.
  split; [|split; [|exact Ha]].
  - rewrite (Hw "happy"); [now rewrite Hh|preset_member].
  - rewrite (Hw "angry"); [now rewrite Hn|preset_member].
Defined.

(** A model without expression manager ignores both calls. *)
Example expressions_need_a_manager :
  setExpression "happy" None (showing statue) = showing statue
  /\ resetExpressions (showing statue) = showing statue.
Proof. split; reflexivity. Qed.

(** C10, as stated, fails on two counts.  The weight is clamped: asked
    for 2, the expression [happy] ends at 1.  And an expression the
    model does not define receives no weight: on [avatar], which
    defines no [angry], that preset has no weight after the call, while
    it is recorded as the active expression. *)
Lemma setExpression_clamps_and_skips_undefined :
  let s := showing avatar in
  (expressionValue s "happy" = Some 0%Q
   /\ expressionValue (setExpression "happy" (Some 2%Q) s) "happy"
      = Some 1%Q
   /\ ~ (expressionWeight (setExpression "happy" (Some 2%Q) s) "happy"
         == 2)%Q)
  /\ (expressionValue s "angry" = None
      /\ expressionValue (setExpression "angry" None s) "angry" = None
      /\ ~ (expressionWeight (setExpression "angry" None s) "angry" == 1)%Q
      /\ activeExpression (setExpression "angry" None s) = "angry").
Proof. vm_compute. repeat split; discriminate. Qed.

(** C10, amended.  On a model with an expression manager,
    [setExpression] sets every preset the model defines to 0 and then
    the requested expression, if the model defines it, to the given
    weight (1 when omitted) clamped to the interval from 0 to 1; a
    weight within the interval is taken as it is, and the weight of the
    requested expression ends within it.  Every other preset
    ends at 0, so that no two presets have a nonzero weight, an
    expression outside the presets keeps its weight, and the requested
    expression is recorded as the active one, defined or not.  Without
    a model, or without an expression manager, the call changes
    nothing. *)
Theorem setExpression_is_exclusive
  (expression : string) (weight : option Q) (s s0 : State)
  (vrm : VRM.t) (manager : gmap string Q) :
  currentVrm s = Some vrm ->
  VRM.expressionManager vrm = Some manager ->
  (currentVrm s0 = None
   \/ exists vrm0, currentVrm s0 = Some vrm0
                   /\ VRM.expressionManager vrm0 = None) ->
  (let s' := setExpression expression weight s in
   expressionValue s' expression
   = (fun _ => VRMExpressionManager.saturate (default 1%Q weight))
       <$> expressionValue s expression
   /\ ((0 <= default 1%Q weight)%Q -> (default 1%Q weight <= 1)%Q ->
       forall before, expressionValue s expression = Some before ->
         (expressionWeight s' expression == default 1%Q weight)%Q)
   /\ (0 <= expressionWeight s' expression)%Q
   /\ (expressionWeight s' expression <= 1)%Q
   /\ (forall expr, expr ∈ RENDER_CONFIG_expressions ->
         expr <> expression ->
         expressionValue s' expr = (fun _ => 0%Q) <$> expressionValue s expr)
   /\ (forall expr, expr ∉ RENDER_CONFIG_expressions ->
         expr <> expression ->
         expressionValue s' expr = expressionValue s expr)
   /\ (forall p q, p ∈ RENDER_CONFIG_expressions ->
         q ∈ RENDER_CONFIG_expressions ->
         ~ (expressionWeight s' p == 0)%Q ->
         ~ (expressionWeight s' q == 0)%Q -> p = q)
   /\ activeExpression s' = expression)
  /\ setExpression expression weight s0 = s0.
Proof.
  intros Hv Hm H0. split.
  - cbn zeta.
    assert (Hval : forall k,
              expressionValue (setExpression expression weight s) k
              = if decide (expression = k)
                then (fun _ => VRMExpressionManager.saturate
                                 (default 1%Q weight))
                       <$> expressionValue s k
                else if decide (k ∈ RENDER_CONFIG_expressions)
                     then (fun _ => 0%Q) <$> expressionValue s k
                     else expressionValue s k).
    { intros k. rewrite (setExpression_result _ _ _ _ _ Hv Hm).
      unfold expressionValue at 1.
      cbn [currentVrm setActiveExpression set_currentVrm
           VRM.expressionManager VRM.setExpressionManager].
      unfold VRMExpressionManager.getValue at 1.
      rewrite setExpression_lookup.
      unfold expressionValue. rewrite Hv, Hm. reflexivity. }
    assert (Hother : forall expr, expr ∈ RENDER_CONFIG_expressions ->
              expr <> expression ->
              expressionWeight (setExpression expression weight s) expr
              = 0%Q).
    { intros expr Hin Hne. rewrite expressionWeight_value, Hval.
      rewrite decide_False by congruence. rewrite decide_True by exact Hin.
      now destruct (expressionValue s expr). }
    assert (Hrange : (0 <= expressionWeight
                             (setExpression expression weight s) expression)%Q
                     /\ (expressionWeight
                           (setExpression expression weight s) expression
                         <= 1)%Q).
    { rewrite expressionWeight_value, Hval, decide_True by reflexivity.
      destruct (expressionValue s expression); cbn.
      - apply saturate_bounds.
      - split; discriminate. }
    split; [|split; [|split; [exact (proj1 Hrange)|
      split; [exact (proj2 Hrange)|split; [|split; [|split]]]]]].
    + rewrite Hval. now rewrite decide_True.
    + intros Hlo Hhi before Hb.
      rewrite expressionWeight_value, Hval, decide_True by reflexivity.
      rewrite Hb. cbn. now apply saturate_in_range.
    + intros expr Hin Hne. rewrite Hval.
      rewrite decide_False by congruence. now rewrite decide_True.
    + intros expr Hin Hne. rewrite Hval.
      rewrite decide_False by congruence. now rewrite decide_False.
    + intros p q Hp Hq Np Nq.
      destruct (decide (p = expression)) as [->|Hpe].
      * destruct (decide (q = expression)) as [->|Hqe]; [reflexivity|].
        exfalso. apply Nq. now rewrite (Hother q Hq Hqe).
      * exfalso. apply Np. now rewrite (Hother p Hp Hpe).
    + rewrite (setExpression_result _ _ _ _ _ Hv Hm). reflexivity.
  - unfold setExpression.
    destruct H0 as [->|(vrm0 & -> & ->)]; reflexivity.
Qed.

Lemma setExpression_is_exclusive_witness :
  let s := run boneNames [CallSetExpression "happy" None] (showing avatar) in
  let s' := setExpression "neutral" (Some (1 # 2)%Q) s in
  currentVrm initialState = None
  /\ expressionValue s "happy" = Some 1%Q
  /\ expressionValue s' "neutral" = Some (1 # 2)%Q
  /\ expressionValue s' "happy" = Some 0%Q
  /\ activeExpression s' = "neutral".
Proof.
  intros s s'.
  assert (Hv : exists vrm manager,
             currentVrm s = Some vrm
             /\ VRM.expressionManager vrm = Some manager).
  { eexists _, _. split; reflexivity. }
  destruct Hv as (vrm & manager & Hv & Hm).
  destruct (setExpression_is_exclusive "neutral" (Some (1 # 2)%Q) s
              initialState vrm manager Hv Hm (or_introl eq_refl))
    as ((Hw & _ & _ & _ & Hother & _ & _ & Ha) & _).
  split; [reflexivity|]. split; [reflexivity|].
  split; [exact Hw|]. split; [|exact Ha].
  subst s'. rewrite (Hother "happy"); [reflexivity| |discriminate].
  preset_member.
Defined.
End Expressions.

(** ** Replacing a model *)
Section Replacement.
Import JsString Viewer Samples.

(** C8.  The specification: [loadVRM] removes the previous model and resets
    the mixer, the active action and all expressions before the load
    begins, so that a failed load leaves no model.  The model, the
    mixer and the action are reset as stated ([loadVRM_replaces],
    [failed_load_leaves_no_model]); the expressions are not.
    [resetExpressions] is called after [currentVrm] was set to [null]
    and returns at its guard, so [loadVRM] never changes the
    active-expression state: with [happy] set on the model shown, it
    is still [happy] after [loadVRM], where [resetExpressions] called
    before would have cleared it. *)
Theorem loadVRM_keeps_expression_state (url : string) (s : State) :
  activeExpression (loadVRM url s) = activeExpression s
  /\ (let shown := run boneNames [CallSetExpression "happy" None]
                     (showing avatar) in
      expressionWeight shown "happy" = 1%Q
      /\ activeExpression shown = "happy"
      /\ activeExpression (loadVRM "/models/b.vrm" shown) = "happy"
      /\ activeExpression (resetExpressions shown) = "").
Proof.
  split.
  - destruct (truthy url) eqn:Hu.
    + now rewrite (loadVRM_result url s Hu).
    + unfold loadVRM. now rewrite Hu.
  - vm_compute. repeat split.
Qed.
End Replacement.

(** ** Dispatch on the animation URL *)
Section Dispatch.
Import JsString Viewer Samples.
Local Open Scope list_scope.

(** C9.  With a model loaded, [playAnimation] hands a URL whose
    lowercased form ends in [.fbx] to the FBX loader, whose callback
    runs the retargeting, and every other URL to the GLTF loader.  The
    GLTF callback plays the first clip of the file as it is, and
    leaves the error state alone, also when the file has no clip. *)
Theorem animation_dispatch
  (url : string) (s : State) (vrm : VRM.t)
  (clip : AnimationClip.t) (rest : list AnimationClip.t)
  (vrmData : option VRM.t) :
  currentVrm s = Some vrm ->
  truthy url = true ->
  loads (playAnimation url s)
  = loads s ++ [if endsWith (toLowerCase url) ".fbx"
                then LoadFBX url else LoadGLTFAnimation url]
  /\ (let s' := gltfOnLoad {| GLTF.animations := clip :: rest;
                              GLTF.userData_vrm := vrmData |} s in
      error s' = error s
      /\ exists m a action,
           mixer s' = Some m
           /\ activeAction s' = Some a
           /\ AnimationMixer.actions m !! a = Some action
           /\ AnimationAction.clip action = clip
           /\ AnimationAction.playing action = true)
  /\ (let s' := gltfOnLoad {| GLTF.animations := [];
                              GLTF.userData_vrm := vrmData |} s in
      error s' = error s
      /\ activeAction s' = activeAction s
      /\ loads s' = loads s).
Proof.
  intros Hv Hu. split; [|split].
  - unfold playAnimation. rewrite Hv, Hu. cbn [negb].
    assert (Hl : loads (clearActiveAction s) = loads s).
    { unfold clearActiveAction. now destruct (activeAction s). }
    destruct (endsWith _ _); cbn; now rewrite Hl.
  - cbn zeta. rewrite (gltfOnLoad_plays _ _ _ vrm clip rest Hv eq_refl).
    cbn zeta. split; [reflexivity|].
    eexists _, _, _. split; [reflexivity|]. split; [reflexivity|].
    split; [apply lookup_snoc|]. split; reflexivity.
  - cbn zeta. unfold gltfOnLoad. rewrite Hv. repeat split.
Qed.

Lemma animation_dispatch_witness :
  currentVrm (showing avatar) = Some avatar
  /\ truthy "/animations/Walk.FBX" = true
  /\ loads (playAnimation "/animations/Walk.FBX" (showing avatar))
     = loads (showing avatar) ++ [LoadFBX "/animations/Walk.FBX"].
Proof.
  split; [reflexivity|]. split; [reflexivity|].
  exact (proj1 (animation_dispatch "/animations/Walk.FBX" (showing avatar)
                  avatar (clipOf []) [] None eq_refl eq_refl)).
Defined.

Example dispatch_by_extension :
  loads (playAnimation "/animations/wave.glb" (showing avatar))
  = [LoadModel "/models/daw.vrm"; LoadGLTFAnimation "/animations/wave.glb"]
  /\ loads (playAnimation "/animations/wave.gltf" (showing avatar))
     = [LoadModel "/models/daw.vrm";
        LoadGLTFAnimation "/animations/wave.gltf"]
  /\ loads (playAnimation "/animations/wave.vrma" (showing avatar))
     = [LoadModel "/models/daw.vrm";
        LoadGLTFAnimation "/animations/wave.vrma"]
  /\ loads (playAnimation "/animations/walk.fbx?v=2" (showing avatar))
     = [LoadModel "/models/daw.vrm";
        LoadGLTFAnimation "/animations/walk.fbx?v=2"]
  /\ loads (playAnimation "/animations/walk.fbx" (showing avatar))
     = [LoadModel "/models/daw.vrm"; LoadFBX "/animations/walk.fbx"].
Proof. vm_compute. repeat split. Qed.
End Dispatch.

(** ** The handles *)
Section Handles.
Import JsString Viewer Samples.

(** C7.  Once the effect ran on an attached container, the container
    carries [loadVRM], [playAnimation] and [setExpression], and the
    animation-control ref carries [stopAnimation] and
    [resetExpressions] next to [playAnimation] and [setExpression];
    the handlers of the form reach the viewer through them.  The
    container of the simple viewer carries [loadVRM]. *)
Theorem handles_after_mount (c : Component) (expression : string)
  (element : Page.VRMContainer.t) :
  containerRef c <> None ->
  let c' := useEffect c in
  (exists container control,
     containerRef c' = Some container
     /\ animationControlRef c' = Some control
     /\ VRMContainer.loadVRM container = Some loadVRM
     /\ VRMContainer.playAnimation container = Some playAnimation
     /\ VRMContainer.setExpression container = Some setExpression
     /\ AnimationControl.stopAnimation control = stopAnimation
     /\ AnimationControl.resetExpressions control = resetExpressions
     /\ AnimationControl.playAnimation control = playAnimation
     /\ AnimationControl.setExpression control = setExpression)
  /\ viewer (handleLoadModel c')
     = (if truthy (modelUrl c') then loadVRM (modelUrl c') (viewer c')
        else viewer c')
  /\ viewer (handlePlayAnimation c')
     = (if truthy (animationUrl c')
        then playAnimation (animationUrl c') (viewer c') else viewer c')
  /\ viewer (handleStopAnimation c') = stopAnimation (viewer c')
  /\ viewer (handleSetExpression expression c')
     = setExpression expression None (viewer c')
  /\ viewer (handleResetExpressions c') = resetExpressions (viewer c')
  /\ Page.expose (Some element)
     = Some {| Page.VRMContainer.loadVRM := Some Page.handleLoadModel |}.
Proof.
  intros Hc c'. subst c'. unfold useEffect.
  destruct (containerRef c) as [container|]; [|congruence].
  split.
  { eexists _, _. repeat split. }
  unfold handleLoadModel, handlePlayAnimation, handleStopAnimation,
    handleSetExpression, handleResetExpressions.
  cbn [containerRef animationControlRef modelUrl animationUrl viewer
       VRMContainer.loadVRM VRMContainer.playAnimation
       VRMContainer.setExpression AnimationControl.stopAnimation
       AnimationControl.resetExpressions set_viewer].
  repeat split.
  - now destruct (truthy (modelUrl c)).
  - now destruct (truthy (animationUrl c)).
Qed.

Lemma handles_after_mount_witness :
  containerRef rendered <> None
  /\ loads (viewer (useEffect rendered)) = [LoadModel "/models/daw.vrm"]
  /\ viewer (handleStopAnimation (useEffect rendered))
     = stopAnimation (viewer (useEffect rendered)).
Proof.
  assert (Hc : containerRef rendered <> None) by discriminate.
  split; [exact Hc|]. split; [reflexivity|].
  exact (proj1 (proj2 (proj2 (proj2
           (handles_after_mount rendered "happy"
              Page.VRMContainer.element Hc))))).
Defined.
End Handles.

(** * Further properties *)

(** ** Colours *)
Section Colours.
Import Colour.
Local Open Scope N_scope.

Lemma hexDigit_digitChar d : d < 16 -> hexDigit (digitChar d) = Some d.
Proof.
  intros Hd.
  assert (Hm : exists m : nat, (m < 16)%nat /\ d = N.of_nat m).
  { exists (N.to_nat d). split; lia. }
  destruct Hm as (m & Hm & ->).
  do 16 (destruct m as [|m]; [reflexivity|]). lia.
Qed.

Lemma digits_hexString k :
  forall acc n, n < 16 ^ N.of_nat k ->
    digits acc (hexString k n) = acc * 16 ^ N.of_nat k + n.
Proof.
  induction k as [|k IH]; intros acc n Hn.
  - cbn in *. lia.
  - cbn [hexString digits].
    assert (Hpow : 16 ^ N.of_nat (S k) = 16 * 16 ^ N.of_nat k).
    { rewrite Nat2N.inj_succ, N.pow_succ_r'. reflexivity. }
    pose proof (N.pow_nonzero 16 (N.of_nat k) ltac:(lia)) as Hnz.
    assert (Hq : n / 16 ^ N.of_nat k < 16).
    { apply N.Div0.div_lt_upper_bound. lia. }
    rewrite (hexDigit_digitChar _ Hq), IH by (apply N.mod_lt; exact Hnz).
    rewrite Hpow. pose proof (N.div_mod n _ Hnz) as Hdm. nia.
Qed.
End Colours.

Section ColourProperties.
Import Colour.

(** X1.  Round trip: for a numeral of one to thirteen hexadecimal digits,
    [hexToColor] of ["#"] followed by the numeral is the number the
    numeral denotes. *)
Theorem hexToColor_of_hash_numeral (k : nat) (n : N) :
  (0 < k <= 13)%nat ->
  (n < 16 ^ N.of_nat k)%N ->
  hexToColor ("#" ++ hexString k n) = Some (Z.of_N n).
Proof.
  intros [Hk _] Hn. destruct k as [|k]; [lia|].
  change ("#" ++ hexString (S k) n) with (String "#" (hexString (S k) n)).
  unfold hexToColor. cbn [replace]. rewrite Ascii.eqb_refl.
  change ("0x" ++ hexString (S k) n)
    with (String "0" (String "x" (hexString (S k) n))).
  unfold parseInt16. cbn [trimStart].
  change (isWhiteSpace "0") with false. cbv iota.
  pose proof (digits_hexString (S k) 0 n Hn) as Hd.
  cbn [hexString] in *. cbn [digits] in Hd.
  destruct (hexDigit (digitChar (n / 16 ^ N.of_nat k))) as [d|] eqn:Hq.
  - rewrite N.mul_0_r, N.add_0_l in Hd. rewrite Hd.
    f_equal. rewrite N.mul_0_l, N.add_0_l. lia.
  - exfalso. revert Hq. rewrite hexDigit_digitChar; [discriminate|].
    apply N.Div0.div_lt_upper_bound.
    rewrite Nat2N.inj_succ, N.pow_succ_r' in Hn. lia.
Qed.

Lemma hexToColor_of_hash_numeral_witness :
  (0 < 6 <= 13)%nat
  /\ (13434615 < 16 ^ N.of_nat 6)%N
  /\ hexToColor "#ccfef7" = Some 13434615%Z.
Proof.
  assert (H1 : (0 < 6 <= 13)%nat) by lia.
  assert (H2 : (13434615 < 16 ^ N.of_nat 6)%N) by (vm_compute; reflexivity).
  split; [exact H1|]. split; [exact H2|].
  exact (hexToColor_of_hash_numeral 6 13434615 H1 H2).
Defined.

(** X2.  When no hexadecimal digit follows the ["#"], [hexToColor] is
    [NaN]; white space or a sign after the ["#"] is not skipped. *)
Theorem hexToColor_without_digit (rest : string) :
  match rest with
  | EmptyString => True
  | String c _ => hexDigit c = None
  end ->
  hexToColor ("#" ++ rest) = None.
Proof.
  intros H. change ("#" ++ rest) with (String "#" rest).
  unfold hexToColor. cbn [replace]. rewrite Ascii.eqb_refl.
  change ("0x" ++ rest) with (String "0" (String "x" rest)).
  unfold parseInt16. cbn [trimStart].
  change (isWhiteSpace "0") with false. cbv iota.
  destruct rest as [|c r]; [reflexivity|]. now rewrite H.
Qed.

Lemma hexToColor_without_digit_witness :
  hexDigit "-" = None /\ hexToColor "#-ff" = None.
Proof.
  split; [reflexivity|].
  exact (hexToColor_without_digit "-ff" eq_refl).
Defined.
End ColourProperties.

(** ** The bone-mapping table *)
Section TableProperties.
Import JsString Viewer BoneTable.
Local Open Scope list_scope.

Lemma getOwn_set {V} (o : JsObject.t V) k v k' :
  JsObject.getOwn (JsObject.set o k v) k'
  = if String.eqb k' k then Some v else JsObject.getOwn o k'.
Proof.
  unfold JsObject.getOwn.
  induction o as [|[k0 v0] o IH]; cbn.
  - rewrite (String.eqb_sym k k'). now destruct (String.eqb k' k).
  - destruct (String.eqb_spec k0 k) as [->|Hne]; cbn.
    + rewrite (String.eqb_sym k k'). now destruct (String.eqb k' k).
    + destruct (String.eqb_spec k0 k') as [->|Hne']; cbn.
      * destruct (String.eqb_spec k' k); [congruence|reflexivity].
      * exact IH.
Qed.

Lemma getOwn_setAll {V} (keys : list string) (v : V) :
  forall (o : JsObject.t V) k,
    JsObject.getOwn (setAll keys v o) k
    = if existsb (String.eqb k) keys then Some v else JsObject.getOwn o k.
Proof.
  unfold setAll.
  induction keys as [|k0 ks IH]; intros o k; cbn [fold_left existsb];
    [reflexivity|].
  rewrite IH, getOwn_set.
  destruct (existsb (String.eqb k) ks); [now rewrite orb_true_r|].
  now rewrite orb_false_r.
Qed.

(** One pass of the loop writes the node of the bone under
    [writtenKeys]. *)
Lemma mapBone_setAll h boneMapping boneName :
  mapBone h boneMapping boneName
  = match VRMHumanoid.getRawBoneNode h boneName with
    | Some vrmBone => inr (setAll (writtenKeys boneName) vrmBone boneMapping)
    | None => inl "VRM bone is not an Object3D"
    end.
Proof.
  unfold mapBone, writtenKeys, setAll.
  destruct (VRMHumanoid.getRawBoneNode h boneName); [|reflexivity].
  destruct (includes _ "spine"), (includes _ "neck"), (includes _ "head"),
    (includes _ "lefthand"), (includes _ "righthand"); reflexivity.
Qed.

Lemma find_append {A} (f : A -> bool) (l1 l2 : list A) :
  List.find f (l1 ++ l2)
  = match List.find f l1 with
    | Some x => Some x
    | None => List.find f l2
    end.
Proof.
  induction l1 as [|x l1 IH]; cbn; [reflexivity|].
  now destruct (f x).
Qed.

Lemma mapBones_lookup h boneNames :
  forall boneMapping m key,
    mapBones h boneNames boneMapping = inr m ->
    JsObject.getOwn m key
    = match lastWriter boneNames key with
      | Some boneName => VRMHumanoid.getRawBoneNode h boneName
      | None => JsObject.getOwn boneMapping key
      end.
Proof.
  unfold lastWriter.
  induction boneNames as [|b bs IH]; intros m0 m key; cbn [mapBones].
  - now intros [= ->].
  - rewrite mapBone_setAll.
    destruct (VRMHumanoid.getRawBoneNode h b) as [node|] eqn:Hb;
      [|discriminate].
    intros Hm. rewrite (IH _ _ key Hm).
    cbn [rev]. rewrite find_append.
    destruct (List.find (writes key) (rev bs)) as [b'|]; [reflexivity|].
    cbn [List.find]. rewrite getOwn_setAll. unfold writes.
    destruct (existsb _ _); [now rewrite Hb|reflexivity].
Qed.
Lemma mapBones_all_present h boneNames :
  forall boneMapping m,
    mapBones h boneNames boneMapping = inr m ->
    forall b, In b boneNames -> is_Some (VRMHumanoid.getRawBoneNode h b).
Proof.
  induction boneNames as [|b0 bs IH]; intros m0 m Hm b Hin; [easy|].
  cbn [mapBones] in Hm. rewrite mapBone_setAll in Hm.
  destruct (VRMHumanoid.getRawBoneNode h b0) as [node|] eqn:Hb;
    [|discriminate].
  destruct Hin as [<-|Hin]; [now rewrite Hb|]. exact (IH _ _ Hm b Hin).
Qed.

Lemma lastWriter_In boneNames key b :
  lastWriter boneNames key = Some b -> In b boneNames /\ writes key b = true.
Proof.
  unfold lastWriter. intros H. apply find_some in H as [Hin Hw].
  split; [now apply in_rev|exact Hw].
Qed.

Lemma lastWriter_is_Some boneNames key b :
  In b boneNames -> writes key b = true ->
  is_Some (lastWriter boneNames key).
Proof.
  unfold lastWriter. intros Hin Hw.
  destruct (List.find (writes key) (rev boneNames)) eqn:Hf; [eauto|].
  apply in_rev in Hin. apply (find_none _ _ Hf) in Hin. congruence.
Qed.

Lemma writes_own_name b : writes b b = true.
Proof. unfold writes, writtenKeys. cbn. now rewrite String.eqb_refl. Qed.

Lemma writes_lower_name b : writes (toLowerCase b) b = true.
Proof.
  unfold writes, writtenKeys. cbn.
  now rewrite String.eqb_refl, orb_true_r.
Qed.

(** X3.  When the table is built, a key holds the node of the last bone
    of the enumeration whose pass writes that key, and keys no pass
    writes are absent.  In particular every bone name and its lowercased
    form are keys, and every value is a node of the humanoid. *)
Theorem built_table_lookup
  (boneNames : list string) (h : VRMHumanoid.t) (m : JsObject.t Object3D.t) :
  buildBoneMapping boneNames (Some h) = inr m ->
  (forall key,
     JsObject.getOwn m key
     = match lastWriter boneNames key with
       | Some boneName => VRMHumanoid.getRawBoneNode h boneName
       | None => None
       end)
  /\ (forall b, In b boneNames ->
        is_Some (JsObject.getOwn m b)
        /\ is_Some (JsObject.getOwn m (toLowerCase b)))
  /\ (forall key node,
        JsObject.getOwn m key = Some node ->
        exists b, In b boneNames
                  /\ VRMHumanoid.getRawBoneNode h b = Some node).
Proof.
  cbn [buildBoneMapping]. intros Hm.
  assert (Hl : forall key,
             JsObject.getOwn m key
             = match lastWriter boneNames key with
               | Some boneName => VRMHumanoid.getRawBoneNode h boneName
               | None => None
               end).
  { intros key. exact (mapBones_lookup h boneNames [] m key Hm). }
  assert (Hkey : forall b key, In b boneNames -> writes key b = true ->
                               is_Some (JsObject.getOwn m key)).
  { intros b key Hin Hw. rewrite Hl.
    destruct (lastWriter_is_Some boneNames key b Hin Hw) as [b' Hb'].
    rewrite Hb'. apply lastWriter_In in Hb' as [Hin' _].
    exact (mapBones_all_present h boneNames [] m Hm b' Hin'). }
  split; [exact Hl|]. split.
  - intros b Hin. split.
    + exact (Hkey b b Hin (writes_own_name b)).
    + exact (Hkey b _ Hin (writes_lower_name b)).
  - intros key node Hk. rewrite Hl in Hk.
    destruct (lastWriter boneNames key) as [b|] eqn:Hb; [|discriminate].
    apply lastWriter_In in Hb as [Hin _]. eauto.
Qed.

Lemma built_table_lookup_witness :
  let h := {| VRMHumanoid.humanBones :=
                [("hips", Samples.hipsNode); ("jaw", Samples.jawNode);
                 ("leftHand", Samples.handNode)] |} in
  exists m,
    buildBoneMapping Samples.boneNames (Some h) = inr m
    /\ JsObject.getOwn m "hand_l" = Some Samples.handNode
    /\ JsObject.getOwn m "tail" = None.
Proof.
  intros h.
  destruct (buildBoneMapping Samples.boneNames (Some h)) as [e|m] eqn:Hm;
    [discriminate|].
  exists m. split; [reflexivity|].
  destruct (built_table_lookup Samples.boneNames h m Hm) as (Hl & _ & _).
  split; rewrite Hl; reflexivity.
Defined.

Lemma split_bone_property bone property :
  includes bone "." = false ->
  includes property "." = false ->
  split "." (bone ++ "." ++ property)%string = [bone; property].
Proof.
  intros Hb Hp. induction bone as [|c b IH].
  - change ("" ++ "." ++ property)%string with (String "." property).
    cbn [split]. rewrite Ascii.eqb_refl. now rewrite (split_no_dot _ Hp).
  - change (String c b ++ "." ++ property)%string
      with (String c (b ++ "." ++ property)%string).
    rewrite includes_dot_cons in Hb. apply orb_false_elim in Hb as [Hc Hb].
    cbn [split]. rewrite Hc, (IH Hb). reflexivity.
Qed.

(** X4.  With the table built, a track named after a bone of the
    enumeration, [bone.property], is emitted under the name of that
    bone's own node with its keyframes unchanged, provided every bone
    whose pass writes the key [bone] has the same node. *)
Theorem enumeration_bone_keeps_its_node
  (boneNames : list string) (h : VRMHumanoid.t) (m : JsObject.t Object3D.t)
  (bone property : string) (node : Object3D.t) (track : KeyframeTrack.t) :
  buildBoneMapping boneNames (Some h) = inr m ->
  In bone boneNames ->
  VRMHumanoid.getRawBoneNode h bone = Some node ->
  (forall b, In b boneNames -> writes bone b = true ->
             VRMHumanoid.getRawBoneNode h b = Some node) ->
  includes bone "." = false ->
  includes property "." = false ->
  KeyframeTrack.name track = (bone ++ "." ++ property)%string ->
  retargetTrack m track
  = Some {| KeyframeTrack.class := newTrackClass (KeyframeTrack.class track);
            KeyframeTrack.name :=
              (Object3D.name node ++ "." ++ property)%string;
            KeyframeTrack.times := KeyframeTrack.times track;
            KeyframeTrack.values := KeyframeTrack.values track |}.
Proof.
  intros Hm Hin Hnode Hsame Hb Hp Hname.
  apply (retargetTrack_exact_key m track bone property []).
  - rewrite Hname. now apply split_bone_property.
  - rewrite (mapBones_lookup h boneNames [] m bone Hm).
    destruct (lastWriter_is_Some boneNames bone bone Hin (writes_own_name bone))
      as [b' Hb'].
    rewrite Hb'. apply lastWriter_In in Hb' as [Hin' Hw].
    exact (Hsame b' Hin' Hw).
Qed.

Lemma enumeration_bone_keeps_its_node_witness :
  let h := {| VRMHumanoid.humanBones :=
                [("hips", Samples.hipsNode); ("jaw", Samples.jawNode);
                 ("leftHand", Samples.handNode)] |} in
  exists m,
    buildBoneMapping Samples.boneNames (Some h) = inr m
    /\ In "leftHand" Samples.boneNames
    /\ KeyframeTrack.name
         <$> retargetTrack m (Samples.track "leftHand.quaternion")
       = Some "J_Bip_L_Hand.quaternion".
Proof.
  intros h.
  destruct (buildBoneMapping Samples.boneNames (Some h)) as [e|m] eqn:Hm;
    [discriminate|].
  exists m. split; [reflexivity|].
  assert (Hin : In "leftHand" Samples.boneNames) by (cbn; tauto).
  split; [exact Hin|].
  rewrite (enumeration_bone_keeps_its_node Samples.boneNames h m
             "leftHand" "quaternion" Samples.handNode
             (Samples.track "leftHand.quaternion") Hm Hin eq_refl).
  - reflexivity.
  - intros b [<-|[<-|[<-|[]]]]; vm_compute; intros H;
      first [discriminate H | reflexivity].
  - reflexivity.
  - reflexivity.
  - reflexivity.
Defined.
End TableProperties.


(** ** Matching and failing *)
Section MatchingProperties.
Import JsString Viewer BoneTable.
Local Open Scope list_scope.

(** X5.  The closest-match search returns the node of the earliest entry
    of the table, in insertion order, whose key loosely matches; entries
    after it are not looked at.  It finds nothing exactly when no key
    matches. *)
Theorem closestMatch_is_first_match
  (boneMapping : JsObject.t Object3D.t) (fbxNameLower : string) :
  match closestMatch boneMapping fbxNameLower with
  | Some vrmBone =>
      exists before key after,
        boneMapping = before ++ (key, vrmBone) :: after
        /\ looselyMatches fbxNameLower key = true
        /\ Forall (fun e => looselyMatches fbxNameLower (fst e) = false) before
  | None =>
      Forall (fun e => looselyMatches fbxNameLower (fst e) = false) boneMapping
  end.
Proof.
  unfold closestMatch.
  induction boneMapping as [|[k v] m IH]; cbn; [constructor|].
  destruct (looselyMatches fbxNameLower k) eqn:Hk; cbn.
  - exists [], k, m. split; [reflexivity|]. split; [exact Hk|constructor].
  - destruct (List.find _ m) as [[k' v']|]; cbn in *.
    + destruct IH as (before & key & after & -> & Hm & Hb).
      exists ((k, v) :: before), key, after.
      split; [reflexivity|]. split; [exact Hm|].
      constructor; [exact Hk|exact Hb].
    + constructor; [exact Hk|exact IH].
Qed.

(** X6.  A track whose name starts with the dot has the empty bone
    name, which every key loosely matches: on a table that has entries
    and no empty key it is emitted under the node of the first entry; on
    the empty table it is dropped. *)
Theorem empty_bone_name_takes_first_entry
  (key : string) (vrmBone : Object3D.t) (others : JsObject.t Object3D.t)
  (property : string) (track : KeyframeTrack.t) :
  JsObject.getOwn ((key, vrmBone) :: others) "" = None ->
  includes property "." = false ->
  KeyframeTrack.name track = ("." ++ property)%string ->
  retargetTrack ((key, vrmBone) :: others) track
  = Some {| KeyframeTrack.class := newTrackClass (KeyframeTrack.class track);
            KeyframeTrack.name :=
              (Object3D.name vrmBone ++ "." ++ property)%string;
            KeyframeTrack.times := KeyframeTrack.times track;
            KeyframeTrack.values := KeyframeTrack.values track |}
  /\ retargetTrack [] track = None.
Proof.
  intros Hk Hp Hname.
  assert (Hs : split "." (KeyframeTrack.name track) = [""; property]).
  { rewrite Hname. exact (split_bone_property "" property eq_refl Hp). }
  split.
  - rewrite (retargetTrack_closest _ track "" property [] Hs Hk eq_refl).
    unfold closestMatch. cbn [List.find fst].
    unfold looselyMatches at 1. cbn [toLowerCase].
    now rewrite includes_empty, orb_true_r.
  - now rewrite (retargetTrack_closest [] track "" property [] Hs eq_refl eq_refl).
Qed.

Lemma empty_bone_name_takes_first_entry_witness :
  JsObject.getOwn [("hips", Samples.hipsNode); ("leftHand", Samples.handNode)]
    "" = None
  /\ includes "position" "." = false
  /\ KeyframeTrack.name
       <$> retargetTrack
             [("hips", Samples.hipsNode); ("leftHand", Samples.handNode)]
             (Samples.track ".position")
     = Some "J_Bip_C_Hips.position".
Proof.
  split; [reflexivity|]. split; [reflexivity|].
  destruct (empty_bone_name_takes_first_entry "hips" Samples.hipsNode
              [("leftHand", Samples.handNode)] "position"
              (Samples.track ".position") eq_refl eq_refl eq_refl) as [H _].
  rewrite H. reflexivity.
Defined.

(** X7.  The track pass of an FBX load fails exactly when the model has a
    humanoid that lacks a bone of the enumeration, and then with the one
    message; the clip plays no part in it. *)
Theorem retargetPass_fails_iff_bone_missing
  (boneNames : list string) (vrm : VRM.t) (clip : AnimationClip.t) :
  ((exists message, retargetPass boneNames vrm clip = inl message)
   <-> exists h, VRM.humanoid vrm = Some h
                 /\ Exists (fun b => VRMHumanoid.getRawBoneNode h b = None)
                      boneNames)
  /\ (forall message, retargetPass boneNames vrm clip = inl message ->
                      message = "VRM bone is not an Object3D").
Proof.
  unfold retargetPass, buildBoneMapping.
  destruct (VRM.humanoid vrm) as [h|].
  - destruct (decide (Exists (fun b => VRMHumanoid.getRawBoneNode h b = None)
                        boneNames)) as [Hex|Hnex].
    + rewrite (mapBones_missing h boneNames [] Hex). split.
      * split; [intros _; eauto|intros _; eauto].
      * now intros message [= <-].
    + assert (Hall : Forall (fun b => is_Some (VRMHumanoid.getRawBoneNode h b))
                       boneNames).
      { apply Forall_forall. intros b Hb.
        destruct (VRMHumanoid.getRawBoneNode h b) eqn:E; [eauto|].
        exfalso. apply Hnex, Exists_exists. eauto. }
      destruct (mapBones_complete h boneNames [] Hall) as [m ->]. split.
      * split; [intros [? [=]]|].
        intros (h' & [= <-] & Hex). contradiction.
      * intros message [=].
  - split.
    + split; [intros [? [=]]|intros (h & [=] & _)].
    + intros message [=].
Qed.

(** X8.  On a model whose humanoid lacks a bone of the enumeration, every
    FBX file that has a clip ends in the same error message; the active
    action, the running actions and the requests stay as they were. *)
Theorem fbx_load_fails_on_incomplete_humanoid
  (boneNames : list string) (fbx : FBX.t) (s : State) (vrm : VRM.t)
  (h : VRMHumanoid.t) :
  currentVrm s = Some vrm ->
  VRM.humanoid vrm = Some h ->
  Exists (fun b => VRMHumanoid.getRawBoneNode h b = None) boneNames ->
  FBX.animations fbx <> [] ->
  let s' := fbxOnLoad boneNames fbx s in
  error s' = "Error applying animation: VRM bone is not an Object3D"
  /\ activeAction s' = activeAction s
  /\ runningActions s' = runningActions s
  /\ loads s' = loads s.
Proof.
  intros Hv Hh Hex Hne s'. subst s'. unfold fbxOnLoad. rewrite Hv.
  destruct (FBX.animations fbx) as [|first rest]; [congruence|].
  unfold retargetPass, buildBoneMapping. rewrite Hh.
  rewrite (mapBones_missing h boneNames [] Hex).
  repeat split. unfold runningActions, ensureMixer. cbn.
  now destruct (mixer s).
Qed.

Lemma fbx_load_fails_on_incomplete_humanoid_witness :
  currentVrm (Samples.showing Samples.avatar) = Some Samples.avatar
  /\ VRMHumanoid.getRawBoneNode
       {| VRMHumanoid.humanBones :=
            [("hips", Samples.hipsNode); ("leftHand", Samples.handNode)] |}
       "jaw" = None
  /\ error (fbxOnLoad Samples.boneNames (Samples.fbxOf ["Tail.position"])
              (Samples.showing Samples.avatar))
     = "Error applying animation: VRM bone is not an Object3D".
Proof.
  split; [reflexivity|]. split; [reflexivity|].
  refine (proj1 (fbx_load_fails_on_incomplete_humanoid Samples.boneNames
                   (Samples.fbxOf ["Tail.position"])
                   (Samples.showing Samples.avatar) Samples.avatar _
                   eq_refl eq_refl _ _)).
  - apply Exists_cons_tl, Exists_cons_hd. reflexivity.
  - discriminate.
Defined.
End MatchingProperties.

(** ** Loading, playing and stopping *)
Section LifecycleProperties.
Import JsString Viewer.
Local Open Scope list_scope.

(** X9.  On the state they share (scene, current model, loading flag,
    error and requests) the full viewer loads models exactly as the
    simple viewer does: the call and both callbacks commute with the
    projection. *)
Theorem full_viewer_loads_like_simple_viewer
  (url : string) (gltf : GLTF.t) (e : LoadError) (s : State) :
  toPage (loadVRM url s) = Page.loadVRM url (toPage s)
  /\ toPage (vrmOnLoad gltf s) = Page.vrmOnLoad gltf (toPage s)
  /\ toPage (vrmOnError e s) = Page.vrmOnError e (toPage s).
Proof.
  split; [|split].
  - unfold Page.loadVRM. destruct (truthy url) eqn:Hu; cbn [negb].
    + now rewrite (loadVRM_result url s Hu).
    + unfold loadVRM. now rewrite Hu.
  - unfold vrmOnLoad, Page.vrmOnLoad.
    now destruct (GLTF.userData_vrm gltf).
  - reflexivity.
Qed.

(** X10.  A model swap that succeeds: after [loadVRM] and the completion
    of its load with a model, that model is the current one and the only
    one in the scene, no mixer and no action are left from before, the
    error is cleared and the loading flag is down. *)
Theorem successful_model_swap
  (url : string) (animations : list AnimationClip.t) (vrm : VRM.t)
  (s : State) :
  wellKept s ->
  truthy url = true ->
  VRM.scene vrm ∉ room ->
  let s' := vrmOnLoad {| GLTF.animations := animations;
                         GLTF.userData_vrm := Some vrm |} (loadVRM url s) in
  currentVrm s' = Some vrm
  /\ modelsInScene s' = [VRM.scene vrm]
  /\ mixer s' = None
  /\ activeAction s' = None
  /\ runningActions s' = []
  /\ error s' = ""
  /\ isLoading s' = false.
Proof.
  intros Hk Hu Hroom s'.
  pose proof (loadVRM_kept url s Hk) as Hk1.
  destruct (loadVRM_replaces url s Hu) as (Hc & Hm & Ha & _ & _).
  pose proof (vrmOnLoad_kept {| GLTF.animations := animations;
                                GLTF.userData_vrm := Some vrm |}
                _ Hc Hk1) as (Hscene & _ & _).
  fold s' in Hscene.
  assert (Hin : VRM.scene vrm ∈ modelsInScene s').
  { unfold modelsInScene. apply list_elem_of_filter. split; [exact Hroom|].
    subst s'. cbn. unfold sceneAdd. apply elem_of_app. right.
    apply elem_of_cons. now left. }
  subst s'. unfold vrmOnLoad in *. cbn [GLTF.userData_vrm] in *.
  split; [reflexivity|]. split.
  - destruct Hscene as [Hnil|(o & Ho & Hone)].
    + rewrite Hnil in Hin. now apply elem_of_nil in Hin.
    + cbn in Ho. injection Ho as <-. exact Hone.
  - cbn. rewrite Hm, Ha. repeat split.
    + unfold runningActions. cbn. now rewrite Hm.
    + now rewrite (loadVRM_result url s Hu).
Qed.

Lemma successful_model_swap_witness :
  wellKept initialState
  /\ truthy "/models/daw.vrm" = true
  /\ (VRM.scene Samples.avatar ∉ room)
  /\ modelsInScene (Samples.showing Samples.avatar)
     = [VRM.scene Samples.avatar].
Proof.
  assert (Hroom : VRM.scene Samples.avatar ∉ room).
  { intros H. apply list_elem_of_In in H. cbn in H.
    repeat (destruct H as [H|H]; [discriminate H|]). exact H. }
  split; [exact initialState_kept|]. split; [reflexivity|].
  split; [exact Hroom|].
  exact (proj1 (proj2 (successful_model_swap "/models/daw.vrm" []
                         Samples.avatar initialState initialState_kept
                         eq_refl Hroom))).
Defined.

(** X11.  Only a failure writes the error state on the animation path:
    the call, the completion of a GLTF load, the completion of an FBX
    load whose track pass went through, and [stopAnimation] leave it as
    it is, so a message from an earlier failure stays after an animation
    that loads and plays. *)
Theorem animation_success_keeps_error
  (boneNames : list string) (url : string) (fbx : FBX.t) (gltf : GLTF.t)
  (s : State) (vrm : VRM.t) (first : AnimationClip.t)
  (rest : list AnimationClip.t) (tracks : list KeyframeTrack.t) :
  currentVrm s = Some vrm ->
  FBX.animations fbx = first :: rest ->
  retargetPass boneNames vrm first = inr tracks ->
  error (playAnimation url s) = error s
  /\ error (gltfOnLoad gltf (playAnimation url s)) = error s
  /\ error (fbxOnLoad boneNames fbx (playAnimation url s)) = error s
  /\ error (stopAnimation s) = error s.
Proof.
  intros Hv Hf Hp.
  assert (Hclear : forall x, error (clearActiveAction x) = error x).
  { intros x. unfold clearActiveAction. now destruct (activeAction x). }
  assert (Hplay : error (playAnimation url s) = error s).
  { unfold playAnimation. rewrite Hv.
    destruct (negb (truthy url)); [reflexivity|].
    destruct (endsWith _ _); cbn; apply Hclear. }
  assert (Hcur : currentVrm (playAnimation url s) = Some vrm).
  { unfold playAnimation. rewrite Hv.
    destruct (negb (truthy url)); [exact Hv|].
    destruct (endsWith _ _); cbn; unfold clearActiveAction;
      now destruct (activeAction s). }
  split; [exact Hplay|]. split; [|split].
  - rewrite <- Hplay. unfold gltfOnLoad. rewrite Hcur.
    destruct (GLTF.animations gltf); reflexivity.
  - rewrite <- Hplay.
    now rewrite (fbxOnLoad_plays _ _ _ _ _ _ _ Hcur Hf Hp).
  - apply Hclear.
Qed.

Lemma animation_success_keeps_error_witness :
  let s := animationOnError (ErrorInstance "404")
             (Samples.showing Samples.fullAvatar) in
  currentVrm s = Some Samples.fullAvatar
  /\ error s = "Failed to load animation: 404"
  /\ error (fbxOnLoad Samples.boneNames (Samples.fbxOf ["hips.quaternion"])
              (playAnimation "/animations/walk.fbx" s))
     = "Failed to load animation: 404".
Proof.
  intros s. split; [reflexivity|]. split; [reflexivity|].
  exact (proj1 (proj2 (proj2
           (animation_success_keeps_error Samples.boneNames
              "/animations/walk.fbx" (Samples.fbxOf ["hips.quaternion"])
              (Samples.animationFile []) s Samples.fullAvatar
              (Samples.clipOf ["hips.quaternion"]) []
              (retargetTracks
                 [("hips", Samples.hipsNode); ("jaw", Samples.jawNode);
                  ("leftHand", Samples.handNode);
                  ("lefthand", Samples.handNode);
                  ("hand_l", Samples.handNode);
                  ("left_hand", Samples.handNode)]
                 (AnimationClip.tracks (Samples.clipOf ["hips.quaternion"])))
              eq_refl eq_refl eq_refl)))).
Defined.

(** X12.  Replacing an animation is not atomic: the call has already
    faded the previous action out, so when the load then fails, or the
    file holds no clip, nothing is left running. *)
Theorem failed_animation_leaves_nothing_running
  (boneNames : list string) (url : string) (e : LoadError)
  (vrmData : option VRM.t) (s : State) :
  wellKept s ->
  currentVrm s <> None ->
  truthy url = true ->
  let called := playAnimation url s in
  runningActions called = []
  /\ runningActions (animationOnError e called) = []
  /\ runningActions (fbxOnLoad boneNames {| FBX.animations := [] |} called)
     = []
  /\ runningActions
       (gltfOnLoad {| GLTF.animations := []; GLTF.userData_vrm := vrmData |}
          called) = [].
Proof.
  intros Hk Hv Hu called.
  assert (Hk1 : wellKept called) by now apply playAnimation_kept.
  assert (Ha : activeAction called = None).
  { exact (proj1 (playAnimation_replaces url s Hu Hv)). }
  assert (Hnone : forall ev, arrivesAlone ev called ->
            activeAction (step boneNames ev called) = None ->
            runningActions (step boneNames ev called) = []).
  { intros ev Halone Hact.
    destruct (step_kept boneNames ev called Halone Hk1) as (_ & H2 & _).
    now apply runningActions_none. }
  split.
  { apply runningActions_none; [apply Hk1|exact Ha]. }
  split; [|split].
  - apply (Hnone (AnimationFailed e)); [exact I|exact Ha].
  - apply (Hnone (FbxLoaded {| FBX.animations := [] |})); [exact Ha|].
    cbn [step]. unfold fbxOnLoad.
    destruct (currentVrm called); [cbn; exact Ha|exact Ha].
  - apply (Hnone (GltfLoaded {| GLTF.animations := [];
                                GLTF.userData_vrm := vrmData |}));
      [exact Ha|].
    cbn [step]. unfold gltfOnLoad.
    destruct (currentVrm called); [cbn; exact Ha|exact Ha].
Qed.

Lemma failed_animation_leaves_nothing_running_witness :
  let es := [CallLoadVRM "/models/daw.vrm";
             ModelLoaded (Samples.modelFile Samples.avatar);
             CallPlayAnimation "/animations/wave.glb";
             GltfLoaded (Samples.animationFile ["hips.quaternion"])] in
  let s := run Samples.boneNames es initialState in
  serial Samples.boneNames es initialState
  /\ List.length (runningActions s) = 1
  /\ runningActions
       (animationOnError OtherValue
          (playAnimation "/animations/missing.glb" s)) = [].
Proof.
  intros es s.
  assert (Hs : serial Samples.boneNames es initialState)
    by (vm_compute; repeat split).
  assert (Hk : wellKept s)
    by exact (run_kept Samples.boneNames es initialState Hs
                initialState_kept).
  assert (Hv : currentVrm s <> None) by (vm_compute; discriminate).
  split; [exact Hs|]. split; [vm_compute; reflexivity|].
  exact (proj1 (proj2 (failed_animation_leaves_nothing_running
                         Samples.boneNames "/animations/missing.glb"
                         OtherValue None s Hk Hv eq_refl))).
Defined.

(** X13.  [stopAnimation] does not cancel a load: called right after
    [playAnimation] it changes nothing, and the clip starts all the same
    when its load completes. *)
Theorem stop_does_not_cancel_pending_load
  (url : string) (clip : AnimationClip.t) (rest : list AnimationClip.t)
  (vrmData : option VRM.t) (s : State) :
  currentVrm s <> None ->
  truthy url = true ->
  stopAnimation (playAnimation url s) = playAnimation url s
  /\ exists m a action,
       let s' := gltfOnLoad {| GLTF.animations := clip :: rest;
                               GLTF.userData_vrm := vrmData |}
                   (stopAnimation (playAnimation url s)) in
       mixer s' = Some m
       /\ activeAction s' = Some a
       /\ AnimationMixer.actions m !! a = Some action
       /\ AnimationAction.clip action = clip
       /\ AnimationAction.running action = true.
Proof.
  intros Hv Hu.
  assert (Ha : activeAction (playAnimation url s) = None).
  { exact (proj1 (playAnimation_replaces url s Hu Hv)). }
  assert (Hstop : stopAnimation (playAnimation url s) = playAnimation url s).
  { unfold stopAnimation, clearActiveAction. now rewrite Ha. }
  split; [exact Hstop|]. rewrite Hstop.
  assert (Hcur : exists vrm, currentVrm (playAnimation url s) = Some vrm).
  { unfold playAnimation. destruct (currentVrm s) as [vrm|] eqn:E;
      [|congruence].
    rewrite Hu. cbn [negb]. exists vrm.
    destruct (endsWith _ _); cbn; unfold clearActiveAction;
      now destruct (activeAction s). }
  destruct Hcur as [vrm Hcur]. cbn zeta.
  rewrite (gltfOnLoad_plays _ vrmData _ vrm clip rest Hcur eq_refl).
  cbn zeta. eexists _, _, _. split; [reflexivity|]. split; [reflexivity|].
  split; [apply lookup_snoc|]. split; reflexivity.
Qed.

Lemma stop_does_not_cancel_pending_load_witness :
  currentVrm (Samples.showing Samples.avatar) <> None
  /\ truthy "/animations/wave.glb" = true
  /\ stopAnimation
       (playAnimation "/animations/wave.glb" (Samples.showing Samples.avatar))
     = playAnimation "/animations/wave.glb" (Samples.showing Samples.avatar).
Proof.
  assert (Hv : currentVrm (Samples.showing Samples.avatar) <> None)
    by (vm_compute; discriminate).
  split; [exact Hv|]. split; [reflexivity|].
  exact (proj1 (stop_does_not_cancel_pending_load "/animations/wave.glb"
                  (Samples.clipOf []) [] None
                  (Samples.showing Samples.avatar) Hv eq_refl)).
Defined.

(** X14.  [stopAnimation] twice is [stopAnimation] once, and on a state
    of a run without overlapping loads nothing runs after it. *)
Theorem stopAnimation_stops_everything (s : State) :
  wellKept s ->
  stopAnimation (stopAnimation s) = stopAnimation s
  /\ activeAction (stopAnimation s) = None
  /\ runningActions (stopAnimation s) = [].
Proof.
  intros Hk. unfold stopAnimation.
  pose proof (clearActiveAction_clears s) as Ha.
  split; [|split; [exact Ha|]].
  - unfold clearActiveAction at 1. now rewrite Ha.
  - apply runningActions_none; [|exact Ha].
    exact (proj1 (proj2 (clearActiveAction_kept s Hk))).
Qed.

Lemma stopAnimation_stops_everything_witness :
  let es := [CallLoadVRM "/models/daw.vrm";
             ModelLoaded (Samples.modelFile Samples.avatar);
             CallPlayAnimation "/animations/wave.glb";
             GltfLoaded (Samples.animationFile ["hips.quaternion"])] in
  let s := run Samples.boneNames es initialState in
  serial Samples.boneNames es initialState
  /\ List.length (runningActions s) = 1
  /\ runningActions (stopAnimation s) = [].
Proof.
  intros es s.
  assert (Hs : serial Samples.boneNames es initialState)
    by (vm_compute; repeat split).
  assert (Hk : wellKept s)
    by exact (run_kept Samples.boneNames es initialState Hs
                initialState_kept).
  split; [exact Hs|]. split; [vm_compute; reflexivity|].
  exact (proj2 (proj2 (stopAnimation_stops_everything s Hk))).
Defined.
End LifecycleProperties.

(** ** Expressions, mixer and handles *)
Section ControlProperties.
Import JsString Viewer.
Local Open Scope list_scope.

(** X15.  An expression outside the preset list is never reset: its
    weight survives [resetExpressions], and [setExpression] of another
    expression. *)
Theorem non_preset_weight_survives
  (expr expression : string) (weight : option Q) (s : State) :
  ~ In expr RENDER_CONFIG_expressions ->
  expr <> expression ->
  expressionWeight (resetExpressions s) expr = expressionWeight s expr
  /\ expressionWeight (setExpression expression weight s) expr
     = expressionWeight s expr.
Proof.
  intros Hnot Hne.
  assert (Hdec : expr ∉ RENDER_CONFIG_expressions).
  { intros H. now apply list_elem_of_In in H. }
  destruct (currentVrm s) as [vrm|] eqn:Hv.
  2:{ unfold resetExpressions, setExpression. now rewrite Hv. }
  destruct (VRM.expressionManager vrm) as [manager|] eqn:Hm.
  2:{ unfold resetExpressions, setExpression. now rewrite Hv, Hm. }
  rewrite (resetExpressions_result s vrm manager Hv Hm),
    (setExpression_result expression weight s vrm manager Hv Hm).
  unfold expressionWeight.
  cbn [currentVrm setActiveExpression set_currentVrm
       VRM.expressionManager VRM.setExpressionManager].
  rewrite Hv, Hm. unfold VRMExpressionManager.getValue.
  rewrite lookup_setValue.
  destruct (decide (expression = expr)); [congruence|].
  rewrite !reset_lookup. now rewrite decide_False.
Qed.

Lemma non_preset_weight_survives_witness :
  let s := setExpression "lookUp" None (Samples.showing Samples.avatar) in
  ~ In "lookUp" RENDER_CONFIG_expressions
  /\ expressionWeight s "lookUp" = 1%Q
  /\ expressionWeight (setExpression "happy" None s) "lookUp" = 1%Q.
Proof.
  intros s.
  assert (Hnot : ~ In "lookUp" RENDER_CONFIG_expressions).
  { cbn. intros H. repeat (destruct H as [H|H]; [discriminate H|]). exact H. }
  split; [exact Hnot|]. split; [reflexivity|].
  rewrite (proj2 (non_preset_weight_survives "lookUp" "happy" None s Hnot
                    ltac:(discriminate))).
  reflexivity.
Defined.

Lemma reset_after_set (e1 e2 : string) (w1 w2 : Q) (m : gmap string Q) :
  In e1 RENDER_CONFIG_expressions \/ e1 = e2 ->
  VRMExpressionManager.setValue e2 w2
    (foldl (fun m e => VRMExpressionManager.setValue e 0%Q m)
       (VRMExpressionManager.setValue e1 w1
          (foldl (fun m e => VRMExpressionManager.setValue e 0%Q m)
             m RENDER_CONFIG_expressions))
       RENDER_CONFIG_expressions)
  = VRMExpressionManager.setValue e2 w2
      (foldl (fun m e => VRMExpressionManager.setValue e 0%Q m)
         m RENDER_CONFIG_expressions).
Proof.
  intros H. apply map_eq. intros k.
  rewrite lookup_setValue, reset_lookup, lookup_setValue, reset_lookup.
  rewrite lookup_setValue, reset_lookup.
  destruct (decide (e2 = k)) as [?|?];
    destruct (decide (k ∈ RENDER_CONFIG_expressions)) as [?|Hnin];
    destruct (decide (e1 = k)) as [?|?];
    destruct (m !! k); try reflexivity.
  all: exfalso; destruct H as [H|H]; [|congruence].
  all: apply Hnin; subst; now apply list_elem_of_In.
Qed.

Lemma setExpression_guard expression weight s :
  currentVrm s = None
  \/ (exists vrm, currentVrm s = Some vrm
                  /\ VRM.expressionManager vrm = None) ->
  setExpression expression weight s = s.
Proof.
  unfold setExpression. intros [->|(vrm & -> & ->)]; reflexivity.
Qed.

(** X16.  [setExpression] forgets an earlier preset: setting a preset and
    then any expression gives the state that setting the second alone
    gives.  The same holds when both calls name the same expression. *)
Theorem setExpression_forgets_earlier_preset
  (e1 e2 : string) (w1 w2 : option Q) (s : State) :
  In e1 RENDER_CONFIG_expressions \/ e1 = e2 ->
  setExpression e2 w2 (setExpression e1 w1 s) = setExpression e2 w2 s.
Proof.
  intros H.
  destruct (currentVrm s) as [vrm|] eqn:Hv.
  2:{ now rewrite (setExpression_guard e1 w1 s (or_introl Hv)). }
  destruct (VRM.expressionManager vrm) as [manager|] eqn:Hm.
  2:{ rewrite (setExpression_guard e1 w1 s); [reflexivity|]. right. eauto. }
  rewrite (setExpression_result e1 w1 s vrm manager Hv Hm).
  rewrite (setExpression_result e2 w2 s vrm manager Hv Hm).
  erewrite setExpression_result; [|reflexivity|reflexivity].
  rewrite (reset_after_set _ _ _ _ _ H).
  unfold setActiveExpression, set_currentVrm, VRM.setExpressionManager.
  cbn [scene currentVrm mixer activeAction isLoading error activeExpression
       loads VRM.scene VRM.humanoid VRM.expressionManager].
  reflexivity.
Qed.

Lemma setExpression_forgets_earlier_preset_witness :
  In "happy" RENDER_CONFIG_expressions
  /\ setExpression "angry" None
       (setExpression "happy" None (Samples.showing Samples.avatar))
     = setExpression "angry" None (Samples.showing Samples.avatar).
Proof.
  assert (Hin : In "happy" RENDER_CONFIG_expressions) by (cbn; tauto).
  split; [exact Hin|].
  exact (setExpression_forgets_earlier_preset "happy" "angry" None None
           (Samples.showing Samples.avatar) (or_introl Hin)).
Defined.
End ControlProperties.

(** ** The mixer *)
Section MixerProperties.
Import JsString Viewer.
Local Open Scope list_scope.

Lemma clearActiveAction_mixer s :
  match mixer s with
  | Some m =>
      exists m', mixer (clearActiveAction s) = Some m'
                 /\ AnimationMixer.root m' = AnimationMixer.root m
                 /\ List.length (AnimationMixer.actions m')
                    = List.length (AnimationMixer.actions m)
  | None => mixer (clearActiveAction s) = None
  end
  /\ currentVrm (clearActiveAction s) = currentVrm s.
Proof.
  unfold clearActiveAction.
  destruct (activeAction s) as [a|], (mixer s) as [m|] eqn:Hm; cbn;
    rewrite ?Hm; split; try reflexivity.
  - eexists. split; [reflexivity|]. split; [reflexivity|].
    cbn. apply length_alter.
  - eauto.
Qed.

Lemma playAnimation_mixer url s :
  match mixer s with
  | Some m =>
      exists m', mixer (playAnimation url s) = Some m'
                 /\ AnimationMixer.root m' = AnimationMixer.root m
                 /\ List.length (AnimationMixer.actions m')
                    = List.length (AnimationMixer.actions m)
  | None => mixer (playAnimation url s) = None
  end
  /\ currentVrm (playAnimation url s) = currentVrm s.
Proof.
  destruct (clearActiveAction_mixer s) as [Hm Hc].
  unfold playAnimation.
  destruct (currentVrm s) eqn:Hv.
  - destruct (negb (truthy url)).
    + rewrite Hv. destruct (mixer s); eauto.
    + destruct (endsWith _ _); cbn; rewrite Hc; split; auto.
  - rewrite Hv. destruct (mixer s); eauto.
Qed.

(** Both completion callbacks leave a mixer with the root an existing
    mixer had, or the scene of the current model, and with no fewer
    actions. *)
Lemma completion_mixer names (e : Event) s vrm :
  (exists fbx, e = FbxLoaded fbx) \/ (exists gltf, e = GltfLoaded gltf) ->
  currentVrm s = Some vrm ->
  currentVrm (step names e s) = Some vrm
  /\ exists m', mixer (step names e s) = Some m'
       /\ AnimationMixer.root m' = AnimationMixer.root (ensureMixer vrm s)
       /\ List.length (AnimationMixer.actions (ensureMixer vrm s))
          <= List.length (AnimationMixer.actions m').
Proof.
  intros [[fbx ->]|[gltf ->]] Hv; cbn [step].
  - destruct (FBX.animations fbx) as [|first rest] eqn:Hf.
    { unfold fbxOnLoad. rewrite Hv, Hf. cbn. eauto. }
    destruct (retargetPass names vrm first) as [msg|tracks] eqn:Hp.
    { unfold fbxOnLoad. rewrite Hv, Hf, Hp. cbn. eauto. }
    rewrite (fbxOnLoad_plays _ _ _ _ _ _ _ Hv Hf Hp). cbn.
    split; [exact Hv|]. eexists. split; [reflexivity|].
    split; [reflexivity|]. cbn. rewrite length_app. lia.
  - destruct gltf as [anims vrmData]. destruct anims as [|clip rest].
    { unfold gltfOnLoad. rewrite Hv. cbn. eauto. }
    rewrite (gltfOnLoad_plays _ _ _ vrm clip rest Hv eq_refl). cbn.
    split; [exact Hv|]. eexists. split; [reflexivity|].
    split; [reflexivity|]. cbn. rewrite length_app. lia.
Qed.

Lemma step_follows names e s :
  arrivesAlone e s -> mixerFollowsModel s ->
  mixerFollowsModel (step names e s).
Proof.
  unfold mixerFollowsModel.
  destruct e as [url|gltf|err|url|fbx|gltf|err| |expression weight| ];
    cbn [step arrivesAlone]; intros Halone H m Hm.
  - destruct (truthy url) eqn:Hu.
    + rewrite (loadVRM_result url s Hu) in Hm. discriminate.
    + unfold loadVRM in *. rewrite Hu in *. auto.
  - unfold vrmOnLoad in *. destruct (GLTF.userData_vrm gltf); cbn in *.
    + specialize (H m Hm). rewrite Halone in H. discriminate.
    + auto.
  - exact (H m Hm).
  - destruct (playAnimation_mixer url s) as [Hx Hc]. rewrite Hc.
    destruct (mixer s) as [m0|] eqn:Hm0; [|congruence].
    destruct Hx as (m' & Hm' & Hr & _).
    assert (m = m') as -> by congruence. rewrite Hr. now apply H.
  - destruct (currentVrm s) as [vrm|] eqn:Hv.
    + destruct (completion_mixer names (FbxLoaded fbx) s vrm
                  (or_introl (ex_intro _ fbx eq_refl)) Hv)
        as (Hc & m' & Hm' & Hr & _).
      cbn [step] in *. rewrite Hc. assert (m = m') as -> by congruence.
      rewrite Hr. unfold ensureMixer.
      destruct (mixer s) as [m0|] eqn:Hm0; [|reflexivity].
      exact (H m0 eq_refl).
    + unfold fbxOnLoad in *. rewrite Hv in *. rewrite Hv. auto.
  - destruct (currentVrm s) as [vrm|] eqn:Hv.
    + destruct (completion_mixer names (GltfLoaded gltf) s vrm
                  (or_intror (ex_intro _ gltf eq_refl)) Hv)
        as (Hc & m' & Hm' & Hr & _).
      cbn [step] in *. rewrite Hc. assert (m = m') as -> by congruence.
      rewrite Hr. unfold ensureMixer.
      destruct (mixer s) as [m0|] eqn:Hm0; [|reflexivity].
      exact (H m0 eq_refl).
    + unfold gltfOnLoad in *. rewrite Hv in *. rewrite Hv. auto.
  - exact (H m Hm).
  - unfold stopAnimation in *.
    destruct (clearActiveAction_mixer s) as [Hx Hc]. rewrite Hc.
    destruct (mixer s) as [m0|] eqn:Hm0; [|congruence].
    destruct Hx as (m' & Hm' & Hr & _).
    assert (m = m') as -> by congruence. rewrite Hr. now apply H.
  - destruct (setExpression_frame expression weight s) as (_ & Hc & Hx & _).
    rewrite Hc. rewrite Hx in Hm. now apply H.
  - destruct (resetExpressions_frame s) as (_ & Hc & Hx & _).
    rewrite Hc. rewrite Hx in Hm. now apply H.
Qed.

(** X17.  In a run in which every completion arrives alone, the mixer,
    when there is one, animates the scene of the current model. *)
Theorem mixer_animates_current_model
  (names : list string) (es : list Event) :
  serial names es initialState ->
  mixerFollowsModel (run names es initialState).
Proof.
  assert (Hinit : mixerFollowsModel initialState) by (intros m H; discriminate).
  revert Hinit. generalize initialState.
  induction es as [|e es IH]; intros s Hs Hser; [exact Hs|].
  destruct Hser as [Ha Hser]. cbn. apply IH; [|exact Hser].
  now apply step_follows.
Qed.

Lemma mixer_animates_current_model_witness :
  let es := [CallLoadVRM "/models/a.vrm";
             ModelLoaded (Samples.modelFile Samples.avatar);
             CallPlayAnimation "/animations/wave.glb";
             GltfLoaded (Samples.animationFile ["hips.quaternion"]);
             CallLoadVRM "/models/b.vrm";
             ModelLoaded (Samples.modelFile Samples.fullAvatar);
             CallPlayAnimation "/animations/walk.glb";
             GltfLoaded (Samples.animationFile ["hips.quaternion"])] in
  serial Samples.boneNames es initialState
  /\ AnimationMixer.root <$> mixer (run Samples.boneNames es initialState)
     = Some (VRM.scene Samples.fullAvatar).
Proof.
  intros es.
  assert (Hs : serial Samples.boneNames es initialState)
    by (vm_compute; repeat split).
  split; [exact Hs|].
  pose proof (mixer_animates_current_model Samples.boneNames es Hs) as H.
  destruct (mixer (run Samples.boneNames es initialState)) as [m|] eqn:Hm;
    [|discriminate Hm].
  specialize (H m Hm).
  assert (Hc : currentVrm (run Samples.boneNames es initialState)
               = Some Samples.fullAvatar) by reflexivity.
  rewrite Hc in H. cbn in H |- *. congruence.
Defined.

(** X18.  No step but [loadVRM] drops the mixer or takes an action out of
    it: stopping and replacing animations leaves every action ever
    created in the mixer, with the mixer's root unchanged. *)
Theorem actions_stay_in_mixer
  (names : list string) (e : Event) (s : State) (m : AnimationMixer.t) :
  (forall url, e <> CallLoadVRM url) ->
  mixer s = Some m ->
  exists m', mixer (step names e s) = Some m'
             /\ AnimationMixer.root m' = AnimationMixer.root m
             /\ List.length (AnimationMixer.actions m)
                <= List.length (AnimationMixer.actions m').
Proof.
  intros Hne Hm.
  destruct e as [url|gltf|err|url|fbx|gltf|err| |expression weight| ];
    cbn [step].
  - now destruct (Hne url).
  - exists m. unfold vrmOnLoad.
    destruct (GLTF.userData_vrm gltf); cbn; rewrite Hm; auto.
  - exists m. cbn. rewrite Hm. auto.
  - destruct (playAnimation_mixer url s) as [Hx _]. rewrite Hm in Hx.
    destruct Hx as (m' & Hm' & Hr & Hl). exists m'. rewrite Hl. auto.
  - destruct (currentVrm s) as [vrm|] eqn:Hv.
    + destruct (completion_mixer names (FbxLoaded fbx) s vrm
                  (or_introl (ex_intro _ fbx eq_refl)) Hv)
        as (_ & m' & Hm' & Hr & Hl).
      unfold ensureMixer in Hr, Hl. rewrite Hm in Hr, Hl. eauto.
    + exists m. unfold fbxOnLoad. rewrite Hv. auto.
  - destruct (currentVrm s) as [vrm|] eqn:Hv.
    + destruct (completion_mixer names (GltfLoaded gltf) s vrm
                  (or_intror (ex_intro _ gltf eq_refl)) Hv)
        as (_ & m' & Hm' & Hr & Hl).
      unfold ensureMixer in Hr, Hl. rewrite Hm in Hr, Hl. eauto.
    + exists m. unfold gltfOnLoad. rewrite Hv. auto.
  - exists m. cbn. rewrite Hm. auto.
  - unfold stopAnimation. destruct (clearActiveAction_mixer s) as [Hx _].
    rewrite Hm in Hx. destruct Hx as (m' & Hm' & Hr & Hl).
    exists m'. rewrite Hl. auto.
  - destruct (setExpression_frame expression weight s) as (_ & _ & Hx & _).
    exists m. rewrite Hx, Hm. auto.
  - destruct (resetExpressions_frame s) as (_ & _ & Hx & _).
    exists m. rewrite Hx, Hm. auto.
Qed.

Lemma actions_stay_in_mixer_witness :
  let s := run Samples.boneNames
             [CallPlayAnimation "/animations/wave.glb";
              GltfLoaded (Samples.animationFile ["hips.quaternion"])]
             (Samples.showing Samples.avatar) in
  exists m m',
    mixer s = Some m
    /\ List.length (AnimationMixer.actions m) = 1
    /\ mixer (step Samples.boneNames CallStopAnimation s) = Some m'
    /\ 1 <= List.length (AnimationMixer.actions m').
Proof.
  intros s.
  assert (Hm : exists m, mixer s = Some m
                         /\ List.length (AnimationMixer.actions m) = 1).
  { vm_compute. eexists. split; reflexivity. }
  destruct Hm as (m & Hm & Hl).
  destruct (actions_stay_in_mixer Samples.boneNames CallStopAnimation s m
              ltac:(discriminate) Hm) as (m' & Hm' & _ & Hle).
  exists m, m'. split; [exact Hm|]. split; [exact Hl|].
  split; [exact Hm'|]. rewrite <- Hl. exact Hle.
Defined.
End MixerProperties.

(** ** Independence and the form *)
Section FormProperties.
Import JsString Viewer.
Local Open Scope list_scope.

(** Animation control reads of the model only whether there is one,
    and writes neither the model nor the active expression. *)
Lemma clearActiveAction_commutes (v : option VRM.t) (e : string) (s : State) :
  clearActiveAction (setActiveExpression e (set_currentVrm v s))
  = setActiveExpression e (set_currentVrm v (clearActiveAction s)).
Proof.
  destruct s as [sc cv mx [a|] il er ae ld]; reflexivity.
Qed.

Lemma playAnimation_commutes (url : string) (v v0 : VRM.t) (e : string)
  (s : State) :
  currentVrm s = Some v0 ->
  playAnimation url (setActiveExpression e (set_currentVrm (Some v) s))
  = setActiveExpression e (set_currentVrm (Some v) (playAnimation url s)).
Proof.
  intros Hv. unfold playAnimation.
  cbn [currentVrm setActiveExpression set_currentVrm]. rewrite Hv.
  destruct (negb (truthy url)); [reflexivity|].
  cbn zeta. rewrite clearActiveAction_commutes.
  destruct (endsWith (toLowerCase url) ".fbx"); reflexivity.
Qed.

Lemma animation_keeps_model (url : string) (s : State) :
  currentVrm (playAnimation url s) = currentVrm s
  /\ currentVrm (stopAnimation s) = currentVrm s.
Proof.
  assert (Hc : forall x, currentVrm (clearActiveAction x) = currentVrm x).
  { intros x. unfold clearActiveAction. now destruct (activeAction x). }
  split; [|apply Hc].
  unfold playAnimation. destruct (currentVrm s) eqn:Hv; [|exact Hv].
  destruct (negb (truthy url)); [exact Hv|]. cbn zeta.
  destruct (endsWith (toLowerCase url) ".fbx"); cbn [currentVrm load];
    now rewrite Hc.
Qed.

(** X19.  Expression control and animation control do not interfere:
    [setExpression] and [resetExpressions] commute with [playAnimation]
    and with [stopAnimation]. *)
Theorem expressions_commute_with_animation
  (expression : string) (weight : option Q) (url : string) (s : State) :
  setExpression expression weight (playAnimation url s)
  = playAnimation url (setExpression expression weight s)
  /\ setExpression expression weight (stopAnimation s)
     = stopAnimation (setExpression expression weight s)
  /\ resetExpressions (playAnimation url s)
     = playAnimation url (resetExpressions s)
  /\ resetExpressions (stopAnimation s) = stopAnimation (resetExpressions s).
Proof.
  destruct (animation_keeps_model url s) as [Hplay Hstop].
  destruct (currentVrm s) as [vrm|] eqn:Hv.
  - destruct (VRM.expressionManager vrm) as [manager|] eqn:Hm.
    + rewrite (setExpression_result expression weight s vrm manager Hv Hm),
        (setExpression_result expression weight _ vrm manager Hplay Hm),
        (setExpression_result expression weight _ vrm manager Hstop Hm),
        (resetExpressions_result s vrm manager Hv Hm),
        (resetExpressions_result _ vrm manager Hplay Hm),
        (resetExpressions_result _ vrm manager Hstop Hm).
      unfold stopAnimation.
      rewrite !clearActiveAction_commutes,
        !(playAnimation_commutes url _ vrm _ s Hv).
      repeat split.
    + assert (Hg : forall x, currentVrm x = Some vrm ->
                setExpression expression weight x = x
                /\ resetExpressions x = x).
      { intros x Hx. split;
          [apply setExpression_guard|apply resetExpressions_guard];
          right; eauto. }
      destruct (Hg s Hv) as [-> ->].
      destruct (Hg _ Hplay) as [-> ->].
      destruct (Hg _ Hstop) as [-> ->].
      repeat split.
  - assert (Hg : forall x, currentVrm x = None ->
              setExpression expression weight x = x
              /\ resetExpressions x = x).
    { intros x Hx. split;
        [apply setExpression_guard|apply resetExpressions_guard];
        now left. }
    destruct (Hg s Hv) as [-> ->].
    destruct (Hg _ Hplay) as [-> ->].
    destruct (Hg _ Hstop) as [-> ->].
    repeat split.
Qed.

(** X20.  Before the effect has run the handlers of the form do nothing:
    the container carries no method and the animation-control ref is
    empty. *)
Theorem handlers_before_mount (c : Component) (expression : string) :
  containerRef c = Some VRMContainer.element ->
  animationControlRef c = None ->
  handleLoadModel c = c
  /\ handlePlayAnimation c = c
  /\ handleStopAnimation c = c
  /\ handleSetExpression expression c = c
  /\ handleResetExpressions c = c.
Proof.
  intros Hc Ha.
  unfold handleLoadModel, handlePlayAnimation, handleStopAnimation,
    handleSetExpression, handleResetExpressions.
  rewrite Hc, Ha. cbn.
  repeat split; try reflexivity.
  - now destruct (negb (truthy (modelUrl c))).
  - now destruct (negb (truthy (animationUrl c))).
Qed.

Lemma handlers_before_mount_witness :
  containerRef rendered = Some VRMContainer.element
  /\ animationControlRef rendered = None
  /\ handleLoadModel rendered = rendered
  /\ handleSetExpression "happy" rendered = rendered.
Proof.
  split; [reflexivity|]. split; [reflexivity|].
  destruct (handlers_before_mount rendered "happy" eq_refl eq_refl)
    as (H1 & _ & _ & H4 & _).
  split; [exact H1|exact H4].
Defined.

(** X21.  The track pass invents nothing: every track it emits stems
    from a track of the clip, with that track's keyframes, and it emits
    no more tracks than the clip has. *)
Theorem retargetTracks_only_renames
  (boneMapping : JsObject.t Object3D.t) (tracks : list KeyframeTrack.t)
  (emitted : KeyframeTrack.t) :
  In emitted (retargetTracks boneMapping tracks) ->
  (exists track,
     In track tracks
     /\ retargetTrack boneMapping track = Some emitted
     /\ KeyframeTrack.times emitted = KeyframeTrack.times track
     /\ KeyframeTrack.values emitted = KeyframeTrack.values track)
  /\ List.length (retargetTracks boneMapping tracks) <= List.length tracks.
Proof.
  intros Hin. split.
  - apply list_elem_of_In in Hin. unfold retargetTracks in Hin.
    apply list_elem_of_omap in Hin as (track & Ht & Hr).
    exists track. split; [now apply list_elem_of_In|].
    split; [exact Hr|]. exact (retargetTrack_keeps_keyframes _ _ _ Hr).
  - unfold retargetTracks. clear Hin.
    induction tracks as [|t ts IH]; cbn; [lia|].
    destruct (retargetTrack boneMapping t); cbn; lia.
Qed.

Lemma retargetTracks_only_renames_witness :
  let table := [("hips", Samples.hipsNode)] in
  let emitted := {| KeyframeTrack.class := QuaternionKeyframeTrack;
                    KeyframeTrack.name := "J_Bip_C_Hips.quaternion";
                    KeyframeTrack.times := Samples.sampleTimes;
                    KeyframeTrack.values := Samples.sampleValues |} in
  In emitted
    (retargetTracks table
       [Samples.track "Tail.position"; Samples.track "hips.quaternion"])
  /\ exists track,
       In track [Samples.track "Tail.position";
                 Samples.track "hips.quaternion"]
       /\ retargetTrack table track = Some emitted.
Proof.
  intros table emitted.
  assert (Hin : In emitted
                  (retargetTracks table
                     [Samples.track "Tail.position";
                      Samples.track "hips.quaternion"])).
  { left. reflexivity. }
  split; [exact Hin|].
  destruct (retargetTracks_only_renames table _ emitted Hin)
    as ((track & Ht & Hr & _) & _).
  exists track. split; assumption.
Defined.
End FormProperties.
